(** * goard: session store, sign-in / sign-up orchestration, role mutation

    A shallow embedding of the Go package [goard] (files [goard_core.go],
    [goard_types.go], [goard_database.go], the in-memory [store], the
    default validator and the constructor [New]) and the properties of its
    session lifecycle.

    Conventions of the embedding.
    - [time.Time] is an instant in nanoseconds since the Unix epoch ([Z]);
      [Unix] is the whole-second timestamp Go's [Time.Unix] returns;
      [time.Duration] is a signed number of nanoseconds.
    - [int64] identifiers are [Z]: the code only compares them.
    - The Go map [map[string]*Session] is a [gmap string Session].  Go
      iterates a map in an unspecified order; [ForEach] below takes the
      canonical order of [map_to_list], and the lemmas about the three
      scanning loops are stated for an arbitrary snapshot list, so no result
      depends on that choice.
    - [*Credentials] and [*Session] are modelled by value.  The code never
      mutates an object that is already reachable from the store: sessions
      are replaced whole, and [setRole]/[unsetRole] write only to the record
      just returned by the repository, which [postgresDatabase] allocates
      afresh on every lookup.
    - Collaborators ([App], [Database], [Hasher], [Validator]) are Go
      interfaces: records of functions over an abstract external state [X].
      Every call is appended to a trace.
    - [ctx] is an oracle: [ctx n] tells whether [ctx.Done()] is ready at the
      [n]-th [select] the operation executes, and with which [ctx.Err()].
    - [go f()] appends a task to the pending list of the world. *)

From stdpp Require Import base gmap strings list fin_maps.
From Stdlib Require Import ZArith.

Open Scope string_scope.
Open Scope list_scope.
Open Scope Z_scope.

Set Warnings "-clear-no-such-hyp".

(** ** Errors (the sentinel errors of the package) *)

Inductive error : Type :=
  | ErrMethod
  | ErrAccessDenied
  | ErrRoleConflict
  | ErrCredentialsConflict
  | ErrCredentialsNotFound
  | ErrCredentialsMismatch
  | ErrBadCredentials
  | ErrSessionNotFound
  | ErrSessionExpired
  | ErrCanceled                         (* context.Canceled *)
  | ErrDeadlineExceeded                 (* context.DeadlineExceeded *)
  | ErrExternal (msg : string)          (* any other collaborator error *)
  | ErrWrap (msg : string) (e : error). (* fmt.Errorf("...%w", e) *)

#[global] Instance error_eq_dec : EqDecision error.
Proof. solve_decision. Defined.

(** [errors.Is]: the error or one it wraps is the target. *)
Fixpoint errors_Is (e target : error) : bool :=
  bool_decide (e = target) ||
  match e with
  | ErrWrap _ e' => errors_Is e' target
  | _ => false
  end.

(** A Go result [(v, err)]. *)
Inductive Res (A : Type) : Type :=
  | Ok (a : A)
  | Err (e : error).
Arguments Ok {A} a.
Arguments Err {A} e.

(** ** Time *)

Definition Time := Z.
Definition Duration := Z.

Definition Second : Duration := 1000000000.
Definition Millisecond : Duration := 1000000.
Definition Minute : Duration := 60 * Second.
Definition Hour : Duration := 60 * Minute.

(** [t.Unix()]: seconds since the epoch, rounded down. *)
Definition Unix (t : Time) : Z := t `div` Second.
(** [t.Add(d)] *)
Definition Add (t : Time) (d : Duration) : Time := t + d.
(** [d.Milliseconds()]: Go's integer division truncates towards zero. *)
Definition Milliseconds (d : Duration) : Z := d `quot` Millisecond.

Definition DEFAULT_TTL : Duration := 8 * Hour.
Definition DEFAULT_CLEANUP : Duration := 5 * Minute.
Definition DEFAULT_COST : Z := 10.

(** ** Data model ([goard_types.go]) *)

Record Account : Type := mkAccount { GetID : Z }.

Record Admin : Type := mkAdmin {
  admin_Account : Account;
  admin_Login : string;
  admin_Password : string
}.

Record Credentials : Type := mkCredentials {
  cred_id : Z;
  cred_login : string;
  cred_passhash : string;
  cred_roles : list string
}.

Record Session : Type := mkSession {
  sess_id : string;
  sess_account : Account;
  sess_credentials : Credentials;
  sess_exp : Time;
  sess_iss : Time;
  sess_admin : bool
}.

Definition Roles (s : Session) : list string := cred_roles (sess_credentials s).

#[global] Instance Account_eq_dec : EqDecision Account.
Proof. solve_decision. Defined.
#[global] Instance Credentials_eq_dec : EqDecision Credentials.
Proof. solve_decision. Defined.
#[global] Instance Session_eq_dec : EqDecision Session.
Proof. solve_decision. Defined.

(** ** CredentialRoleDiff ([diffSlices], goard_database.go) *)

(** The two lookup maps [map[string]struct{}] are sets of strings; the
    loops append in the order of the slice they range over. *)
Definition fillMap (items : list string) : gset string :=
  foldl (fun m item => {[ item ]} ∪ m) ∅ items.

Definition collectMissing (other : gset string) (items : list string) : list string :=
  foldl (fun acc item => if decide (item ∈ other) then acc else acc ++ [item]) [] items.

Definition diffSlices (old new : list string) : list string * list string :=
  let oldMap := fillMap old in
  let newMap := fillMap new in
  let toDelete := collectMissing newMap old in
  let toAdd := collectMissing oldMap new in
  (toDelete, toAdd).

(** The specification's wording: [toDelete] are the elements of [old] not
    in [new], [toAdd] the elements of [new] not in [old]. *)
Definition diff_spec (old new : list string) : list string * list string :=
  (filter (fun x => x ∉ new) old, filter (fun x => x ∉ old) new).

(** ** Collaborator interfaces ([App], [Database], [Hasher], [Validator])

    Each method takes the external state [X] and returns its Go result
    together with the new external state. *)

Record App (X : Type) : Type := mkApp {
  CreateAccount : string -> X -> Res Account * X;
  AccountByID : Z -> X -> Res Account * X;
  DeleteAccount : Z -> X -> option error * X
}.
Arguments CreateAccount {X} _ _ _.
Arguments AccountByID {X} _ _ _.
Arguments DeleteAccount {X} _ _ _.

Record Database (X : Type) : Type := mkDatabase {
  Migrate : X -> option error * X;
  CredentialsByLogin : string -> X -> Res Credentials * X;
  CreateCredentials : Credentials -> X -> option error * X;
  CredentialsByID : Z -> X -> Res Credentials * X;
  DeleteCredentials : Z -> X -> option error * X;
  UpdateCredentials : Credentials -> X -> option error * X
}.
Arguments Migrate {X} _ _.
Arguments CredentialsByLogin {X} _ _ _.
Arguments CreateCredentials {X} _ _ _.
Arguments CredentialsByID {X} _ _ _.
Arguments DeleteCredentials {X} _ _ _.
Arguments UpdateCredentials {X} _ _ _.

Record Hasher (X : Type) : Type := mkHasher {
  Hash : string -> X -> Res string * X;
  Compare : string -> string -> X -> bool * X
}.
Arguments Hash {X} _ _ _.
Arguments Compare {X} _ _ _ _.

Record Validator (X : Type) : Type := mkValidator {
  Validate : string -> string -> X -> bool * X
}.
Arguments Validate {X} _ _ _ _.

(** [cookiesContainer] (goard_container.go); its two methods read and
    write HTTP cookies and are outside the embedding. *)
Record Container : Type := NewCookiesContainer { container_name : string }.

(** [noValidation.Validate] (goard_validator.go). *)
Definition noValidation_Validate (login password : string) : bool :=
  if bool_decide (login = "") || bool_decide (password = "") then false else true.

Definition NewDefaultValidator {X : Type} : Validator X :=
  mkValidator X (fun login password x => (noValidation_Validate login password, x)).

(** ** Calls observed on the collaborators *)

Inductive Event : Type :=
  | CallCreateAccount (account : string)
  | CallAccountByID (id : Z)
  | CallDeleteAccount (id : Z)
  | CallMigrate
  | CallCredentialsByLogin (login : string)
  | CallCreateCredentials (c : Credentials)
  | CallCredentialsByID (id : Z)
  | CallDeleteCredentials (id : Z)
  | CallUpdateCredentials (c : Credentials)
  | CallHash (password : string)
  | CallCompare (hash password : string)
  | CallValidate (login password : string).

#[global] Instance Event_eq_dec : EqDecision Event.
Proof. solve_decision. Defined.

(** ** The world: session store, collaborators' state, trace, goroutines *)

(** The only goroutine the request paths start is the lazy revocation of
    an expired session in [session]. *)
Inductive Task : Type :=
  | TaskRevoke (sessionID : string).

Record World (X : Type) : Type := mkWorld {
  sessions : gmap string Session;   (* store.sessions *)
  ext : X;                          (* state behind the collaborators *)
  trace : list Event;               (* collaborator calls, oldest first *)
  pending : list Task               (* goroutines started and not yet run *)
}.
Arguments mkWorld {X} _ _ _ _.
Arguments sessions {X} _.
Arguments ext {X} _.
Arguments trace {X} _.
Arguments pending {X} _.

(** State-and-error monad of the operations: an error stops the operation
    and keeps the state reached so far. *)
Definition M (X A : Type) : Type := World X -> Res A * World X.

Definition ret {X A : Type} (a : A) : M X A := fun w => (Ok a, w).
Definition fail {X A : Type} (e : error) : M X A := fun w => (Err e, w).
Definition bind {X A B : Type} (m : M X A) (k : A -> M X B) : M X B :=
  fun w => match m w with
           | (Ok a, w') => k a w'
           | (Err e, w') => (Err e, w')
           end.

Notation "x <- m ;; k" := (bind m (fun x => k))
  (at level 100, m at next level, right associativity).
Notation "m ;;; k" := (bind m (fun _ => k))
  (at level 100, right associativity).

(** A Go context, as the sequence of answers of
    [select { case <-ctx.Done(): ... default: ... }]. *)
Definition Ctx : Type := nat -> option error.

(** [context.Background()] is never done. *)
Definition Background : Ctx := fun _ => None.

Definition check {X : Type} (ctx : Ctx) (n : nat) : M X unit :=
  match ctx n with
  | Some e => fail e
  | None => ret tt
  end.

Definition shift (k : nat) (ctx : Ctx) : Ctx := fun n => ctx (k + n)%nat.

Record Goard (X : Type) : Type := mkGoard {
  app : App X;
  database : Database X;
  validator : Validator X;
  hasher : Hasher X;
  admin : Admin;
  ttl : Duration;
  ci : Duration
}.
Arguments app {X} _.
Arguments database {X} _.
Arguments validator {X} _.
Arguments hasher {X} _.
Arguments admin {X} _.
Arguments ttl {X} _.
Arguments ci {X} _.

Record Config (X : Type) : Type := mkConfig {
  cfg_App : App X;
  cfg_Admin : Admin;
  cfg_Container : option Container;
  cfg_Database : option (Database X);
  cfg_Validator : option (Validator X);
  cfg_Hasher : option (Hasher X);
  cfg_TTL : Duration;
  cfg_CI : Duration
}.
Arguments cfg_App {X} _.
Arguments cfg_Admin {X} _.
Arguments cfg_Container {X} _.
Arguments cfg_Database {X} _.
Arguments cfg_Validator {X} _.
Arguments cfg_Hasher {X} _.
Arguments cfg_TTL {X} _.
Arguments cfg_CI {X} _.

Section Operations.
Context {X : Type}.

Definition set_sessions (m : gmap string Session) (w : World X) : World X :=
  mkWorld m (ext w) (trace w) (pending w).

(** ** The in-memory [store] ([CreateSession], [InvokeSession],
    [RevokeSession], [Count], [ForEach]); the mutex is not modelled, an
    operation of the store is one atomic step. *)

Definition CreateSession (session : Session) : M X unit :=
  fun w => (Ok tt, set_sessions (<[sess_id session := session]> (sessions w)) w).

Definition InvokeSession (id : string) : M X Session :=
  fun w => match sessions w !! id with
           | Some session => (Ok session, w)
           | None => (Err ErrSessionNotFound, w)
           end.

Definition RevokeSession (id : string) : M X unit :=
  fun w => (Ok tt, set_sessions (delete id (sessions w)) w).

Definition Count (w : World X) : nat := size (sessions w).

(** The snapshot [tmp] of [ForEach]: the values of the map. *)
Definition snapshot (m : gmap string Session) : list Session :=
  (map_to_list m).*2.

Fixpoint forEachLoop (callback : Session -> M X unit) (tmp : list Session) : M X unit :=
  match tmp with
  | [] => ret tt
  | session :: tmp' => callback session ;;; forEachLoop callback tmp'
  end.

Definition ForEach (callback : Session -> M X unit) : M X unit :=
  fun w => forEachLoop callback (snapshot (sessions w)) w.

(** ** Calls of the collaborators, logged in the trace *)

Definition logged {A : Type} (ev : Event) (f : X -> A * X) (w : World X) : A * World X :=
  let '(a, x') := f (ext w) in
  (a, mkWorld (sessions w) x' (trace w ++ [ev]) (pending w)).

(** A call whose Go result is [(v, err)]. *)
Definition call {A : Type} (ev : Event) (f : X -> Res A * X) : M X A := logged ev f.

(** A call whose Go result is a value that cannot fail. *)
Definition callv {A : Type} (ev : Event) (f : X -> A * X) : M X A :=
  fun w => let '(a, w') := logged ev f w in (Ok a, w').

(** A call whose Go result is only an [error]. *)
Definition calle (ev : Event) (f : X -> option error * X) : M X unit :=
  fun w => match logged ev f w with
           | (Some e, w') => (Err e, w')
           | (None, w') => (Ok tt, w')
           end.

Variable g : Goard X.

(** ** [signinAsAdmin] *)

Definition signinAsAdmin (ctx : Ctx) (now : Time) (uuid : string) : M X Session :=
  let session :=
    {| sess_id := uuid;
       sess_account := admin_Account (admin g);
       sess_credentials :=
         {| cred_id := 0;
            cred_login := admin_Login (admin g);
            cred_passhash := "";
            cred_roles := ["admin"] |};
       sess_exp := Add now (ttl g);
       sess_iss := now;
       sess_admin := false   (* the literal leaves [admin] at its zero value *)
    |} in
  check ctx 0 ;;;
  CreateSession session ;;;
  ret session.

(** ** [signin]

    [now] and [uuid] are what [time.Now()] and [uuid.New().String()]
    return in this call. *)

Definition revokeSameLogin (login : string) (s : Session) : M X unit :=
  if bool_decide (cred_login (sess_credentials s) ≠ login) then ret tt
  else RevokeSession (sess_id s).

Definition signin (ctx : Ctx) (now : Time) (uuid : string)
    (login password : string) : M X Session :=
  if bool_decide (login = "") || bool_decide (password = "") then fail ErrBadCredentials
  else
    check ctx 0 ;;;
    ForEach (revokeSameLogin login) ;;;
    check ctx 1 ;;;
    if bool_decide (login = admin_Login (admin g)) &&
       bool_decide (password = admin_Password (admin g))
    then signinAsAdmin (shift 2 ctx) now uuid
    else
      check ctx 2 ;;;
      credentials <- call (CallCredentialsByLogin login)
                          (CredentialsByLogin (database g) login) ;;
      check ctx 3 ;;;
      account <- call (CallAccountByID (cred_id credentials))
                      (AccountByID (app g) (cred_id credentials)) ;;
      check ctx 4 ;;;
      ok <- callv (CallCompare (cred_passhash credentials) password)
                  (Compare (hasher g) (cred_passhash credentials) password) ;;
      if negb ok then fail ErrCredentialsMismatch
      else
        let session :=
          {| sess_id := uuid;
             sess_account := account;
             sess_credentials := credentials;
             sess_exp := Add now (ttl g);
             sess_iss := now;
             sess_admin := false |} in
        check ctx 5 ;;;
        CreateSession session ;;;
        ret session.

(** ** [signup]

    The function has an unnamed result and a local variable [err] that the
    deferred rollback reads.  [signup_steps] is the part of the body after
    the [defer] statement: it returns the value handed to [return] together
    with the value the variable [err] holds at that moment. *)

Definition signup_steps (ctx : Ctx) (acc : Account) (login password : string)
    (w : World X) : option error * option error * World X :=
  (* err == nil here: CreateAccount succeeded *)
  match ctx 2%nat with
  | Some e => (Some e, None, w)
  | None =>
    (* _, err = g.database.CredentialsByID(ctx, acc.GetID()) *)
    let '(r, w) := logged (CallCredentialsByID (GetID acc))
                          (CredentialsByID (database g) (GetID acc)) w in
    match r with
    | Ok _ => (Some ErrCredentialsConflict, None, w)
    | Err e1 =>
      if negb (errors_Is e1 ErrCredentialsNotFound) then (Some e1, Some e1, w)
      else
        (* err still holds e1 from here on, until Hash assigns it *)
        match ctx 3%nat with
        | Some e => (Some e, Some e1, w)
        | None =>
          (* _, err := ...: a new variable, the outer err is untouched *)
          let '(r, w) := logged (CallCredentialsByLogin login)
                                (CredentialsByLogin (database g) login) w in
          match r with
          | Ok _ => (Some ErrCredentialsConflict, Some e1, w)
          | Err e2 =>
            if negb (errors_Is e2 ErrCredentialsNotFound) then (Some e2, Some e1, w)
            else
              match ctx 4%nat with
              | Some e => (Some e, Some e1, w)
              | None =>
                (* passhash, err = g.hasher.Hash(ctx, password) *)
                let '(r, w) := logged (CallHash password) (Hash (hasher g) password) w in
                match r with
                | Err e3 => (Some e3, Some e3, w)
                | Ok passhash =>
                  match ctx 5%nat with
                  | Some e => (Some e, None, w)
                  | None =>
                    let c := {| cred_id := GetID acc; cred_login := login;
                                cred_passhash := passhash; cred_roles := [] |} in
                    (* err = g.database.CreateCredentials(ctx, ...) *)
                    let '(r, w) := logged (CallCreateCredentials c)
                                          (CreateCredentials (database g) c) w in
                    (r, r, w)
                  end
                end
              end
          end
        end
    end
  end.

(** The deferred function: [if err != nil { g.app.DeleteAccount(...) }];
    an error of the rollback itself is printed and dropped. *)
Definition signup_rollback (acc : Account) (err : option error) (w : World X) : World X :=
  match err with
  | Some _ => (logged (CallDeleteAccount (GetID acc))
                      (DeleteAccount (app g) (GetID acc)) w).2
  | None => w
  end.

Definition signup (ctx : Ctx) (account login password : string)
    (w : World X) : option error * World X :=
  match ctx 0%nat with
  | Some e => (Some e, w)
  | None =>
    let '(ok, w) := logged (CallValidate login password)
                           (Validate (validator g) login password) w in
    if negb ok then (Some ErrBadCredentials, w)
    else
      match ctx 1%nat with
      | Some e => (Some e, w)
      | None =>
        let '(r, w) := logged (CallCreateAccount account)
                              (CreateAccount (app g) account) w in
        match r with
        | Err e => (Some e, w)
        | Ok acc =>
          let '(result, err, w) := signup_steps ctx acc login password w in
          (result, signup_rollback acc err w)
        end
      end
  end.

(** ** [signout] *)

Definition signout (ctx : Ctx) (sessionID : string) : M X unit :=
  fun w =>
    if bool_decide (Count w = 0%nat) then (Ok tt, w)
    else (check ctx 0 ;;; RevokeSession sessionID) w.

(** ** [session] (validation behind [Guard]) *)

Definition spawn (t : Task) (w : World X) : World X :=
  mkWorld (sessions w) (ext w) (trace w) (pending w ++ [t]).

Definition session (now : Time) (sessionID : string) : M X Session :=
  fun w =>
    if bool_decide (Count w = 0%nat) then (Err ErrSessionNotFound, w)
    else
      match InvokeSession sessionID w with
      | (Err e, w') => (Err e, w')
      | (Ok s, w') =>
        if Unix (sess_exp s) >? Unix now then (Ok s, w')
        else (Err ErrSessionExpired, spawn (TaskRevoke sessionID) w')
      end.

(** The body of a started goroutine. *)
Definition run_task (t : Task) : M X unit :=
  match t with
  | TaskRevoke sessionID => RevokeSession sessionID
  end.

(** ** [cleanup]: the body run at one tick [t] of the ticker.  An error of
    the scan would end the process ([log.Fatal]); the in-memory store
    returns none. *)

Definition revokeExpired (t : Time) (s : Session) : M X unit :=
  if Unix (sess_exp s) >? Unix t then ret tt
  else RevokeSession (sess_id s).

Definition cleanup_tick (t : Time) : M X unit :=
  fun w =>
    if bool_decide (Count w = 0%nat) then (Ok tt, w)
    else ForEach (revokeExpired t) w.

(** ** [setRole] and [unsetRole] *)

(** [for i := range credentials.roles { if credentials.roles[i] == role ... }] *)
Fixpoint hasRole (roles : list string) (role : string) : bool :=
  match roles with
  | [] => false
  | r :: roles' => if bool_decide (r = role) then true else hasRole roles' role
  end.

(** The loop of [unsetRole] that rebuilds the slice without [role]. *)
Definition dropRole (roles : list string) (role : string) : list string :=
  foldl (fun acc r => if bool_decide (r ≠ role) then acc ++ [r] else acc) [] roles.

Definition with_roles (c : Credentials) (roles : list string) : Credentials :=
  {| cred_id := cred_id c; cred_login := cred_login c;
     cred_passhash := cred_passhash c; cred_roles := roles |}.

(** The callback of the propagation scan. *)
Definition replaceCredentials (credentials : Credentials) (s : Session) : M X unit :=
  if bool_decide (cred_id (sess_credentials s) = cred_id credentials) then
    CreateSession {| sess_id := sess_id s;
                     sess_account := sess_account s;
                     sess_credentials := credentials;
                     sess_exp := sess_exp s;
                     sess_iss := sess_iss s;
                     sess_admin := sess_admin s |}
  else ret tt.

Definition setRole (id : string) (account : Z) (role : string) : M X unit :=
  session <- InvokeSession id ;;
  if negb (sess_admin session) then fail ErrAccessDenied
  else
    credentials <- call (CallCredentialsByID account)
                        (CredentialsByID (database g) account) ;;
    if hasRole (cred_roles credentials) role then fail ErrRoleConflict
    else
      let credentials := with_roles credentials (cred_roles credentials ++ [role]) in
      calle (CallUpdateCredentials credentials)
            (UpdateCredentials (database g) credentials) ;;;
      ForEach (replaceCredentials credentials).

Definition unsetRole (id : string) (account : Z) (role : string) : M X unit :=
  session <- InvokeSession id ;;
  if negb (sess_admin session) then fail ErrAccessDenied
  else
    credentials <- call (CallCredentialsByID account)
                        (CredentialsByID (database g) account) ;;
    let credentials := with_roles credentials (dropRole (cred_roles credentials) role) in
    calle (CallUpdateCredentials credentials)
          (UpdateCredentials (database g) credentials) ;;;
    ForEach (replaceCredentials credentials).

End Operations.

(** ** [New]: the defaults of the configuration

    [bcrypt cost] stands for [NewBcryptHasher(cost)]; the transport and the
    store are not fields of the model (the store is the [sessions] of the
    world, empty at start as [NewStore] makes it). *)

Definition New {X : Type} (bcrypt : Z -> Hasher X) (config : Config X) : option (Goard X) :=
  match cfg_Database config with
  | None => None
  | Some db =>
    let h := match cfg_Hasher config with
             | None => bcrypt DEFAULT_COST
             | Some h => h
             end in
    match cfg_Container config with
    | None => None
    | Some _ =>
      let v := match cfg_Validator config with
               | None => NewDefaultValidator
               | Some v => v
               end in
      let TTL := if (Milliseconds (cfg_TTL config) =? 0)%Z then DEFAULT_TTL
                 else cfg_TTL config in
      let CI := if (Milliseconds (cfg_CI config) =? 0)%Z then DEFAULT_CLEANUP
                else cfg_CI config in
      Some {| app := cfg_App config; database := db; validator := v;
              hasher := h; admin := cfg_Admin config; ttl := TTL; ci := CI |}
    end
  end.

(** [NewStore()] inside a fresh world. *)
Definition NewWorld {X : Type} (x : X) : World X := mkWorld ∅ x [] [].

(** ** The orchestrator as a transition system

    One transition is one operation of the core run to completion, one
    started goroutine run, or one sweep tick; the operations of different
    requests interleave at this granularity only (no concurrency inside an
    operation is modelled). *)

Inductive step {X : Type} (g : Goard X) : World X -> World X -> Prop :=
  | step_signin ctx now uuid login password w :
      step g w (signin g ctx now uuid login password w).2
  | step_signup ctx account login password w :
      step g w (signup g ctx account login password w).2
  | step_signout ctx sessionID w :
      step g w (signout ctx sessionID w).2
  | step_session now sessionID w :
      step g w (session now sessionID w).2
  | step_goroutine w t ts1 ts2 :
      pending w = ts1 ++ t :: ts2 ->
      step g w (run_task t (mkWorld (sessions w) (ext w) (trace w) (ts1 ++ ts2))).2
  | step_cleanup t w :
      step g w (cleanup_tick t w).2
  | step_setRole id account role w :
      step g w (setRole g id account role w).2
  | step_unsetRole id account role w :
      step g w (unsetRole g id account role w).2.

Definition reachable {X : Type} (g : Goard X) (x0 : X) (w : World X) : Prop :=
  rtc (step g) (NewWorld x0) w.

(** Every entry of the store sits under its own id. *)
Definition store_wf (m : gmap string Session) : Prop :=
  forall k s, m !! k = Some s -> sess_id s = k.

(** Every session of the store expires [d] after it was issued. *)
Definition expiry_ok (d : Duration) (m : gmap string Session) : Prop :=
  forall k s, m !! k = Some s -> sess_exp s = Add (sess_iss s) d.

(** Number of sessions of the store whose credential login is [login]. *)
Definition sessions_of (login : string) (m : gmap string Session) : gmap string Session :=
  filter (fun kv => cred_login (sess_credentials kv.2) = login) m.

(** What the propagation scan makes of a session. *)
Definition refreshed (c : Credentials) (s : Session) : Session :=
  if bool_decide (cred_id (sess_credentials s) = cred_id c)
  then {| sess_id := sess_id s; sess_account := sess_account s;
          sess_credentials := c; sess_exp := sess_exp s;
          sess_iss := sess_iss s; sess_admin := sess_admin s |}
  else s.

(** *** What the scans compute

    The store-level reading of the three callbacks handed to [ForEach]. *)

(** The step of a revoking scan that keeps the sessions satisfying [keep]. *)
Definition revokeUnless (keep : Session -> bool)
    (m : gmap string Session) (s : Session) : gmap string Session :=
  if keep s then m else delete (sess_id s) m.

(** The sessions of [m] that satisfy [keep]. *)
Definition kept (keep : Session -> bool) (m : gmap string Session) : gmap string Session :=
  filter (fun kv => keep kv.2 = true) m.

(** The sessions of [m] that belong to another login. *)
Definition others (login : string) (m : gmap string Session) : gmap string Session :=
  kept (fun s => bool_decide (cred_login (sess_credentials s) ≠ login)) m.

(** The step of the propagation scan. *)
Definition replaceStep (c : Credentials)
    (m : gmap string Session) (s : Session) : gmap string Session :=
  if bool_decide (cred_id (sess_credentials s) = cred_id c)
  then <[sess_id s := refreshed c s]> m else m.

(** What [signin] guarantees of the session it stores. *)
Definition created_by_signin {X : Type} (g : Goard X) (s : Session) : Prop :=
  sess_exp s = Add (sess_iss s) (ttl g) ∧ sess_admin s = false.

(** The five ways an operation of the core changes the store. *)
Inductive store_change {X : Type} (g : Goard X) (m : gmap string Session) :
    gmap string Session -> Prop :=
  | change_none : store_change g m m
  | change_kept keep : store_change g m (kept keep m)
  | change_delete k : store_change g m (delete k m)
  | change_insert keep s :
      created_by_signin g s -> store_change g m (<[sess_id s := s]> (kept keep m))
  | change_refresh c : store_change g m (refreshed c <$> m).

(** *** Vocabulary of the statements *)

(** The session [signinAsAdmin] builds. *)
Definition adminSession {X : Type} (g : Goard X) (now : Time) (uuid : string) : Session :=
  {| sess_id := uuid;
     sess_account := admin_Account (admin g);
     sess_credentials :=
       {| cred_id := 0; cred_login := admin_Login (admin g);
          cred_passhash := ""; cred_roles := ["admin"] |};
     sess_exp := Add now (ttl g);
     sess_iss := now;
     sess_admin := false |}.

(** The outcomes of [signin], by what they leave in the store. *)
Definition signin_outcome {X : Type} (g : Goard X) (ctx : Ctx) (now : Time)
    (uuid L p : string) (w : World X) (r : Res Session) (w' : World X) : Prop :=
  (r = Err ErrBadCredentials ∧ (L = "" ∨ p = "") ∧ w' = w)
  ∨ (L ≠ "" ∧ p ≠ "" ∧ ∃ e, ctx 0%nat = Some e ∧ r = Err e ∧ w' = w)
  ∨ (L ≠ "" ∧ p ≠ "" ∧ ctx 0%nat = None ∧
     ∃ e, r = Err e ∧ sessions w' = others L (sessions w))
  ∨ (L ≠ "" ∧ p ≠ "" ∧ ctx 0%nat = None ∧
     ∃ s, r = Ok s ∧ sessions w' = <[uuid := s]> (others L (sessions w)) ∧
          sess_id s = uuid ∧ sess_iss s = now ∧
          sess_exp s = Add now (ttl g) ∧ sess_admin s = false).

(** The store [m'] is [m] with the credentials [c'] propagated to the
    sessions of account [a], and only to them. *)
Definition propagated (a : Z) (c' : Credentials) (m m' : gmap string Session) : Prop :=
  (forall k s, m !! k = Some s -> cred_id (sess_credentials s) = a ->
     ∃ s', m' !! k = Some s' ∧
           sess_id s' = sess_id s ∧ sess_account s' = sess_account s ∧
           sess_iss s' = sess_iss s ∧ sess_exp s' = sess_exp s ∧
           sess_admin s' = sess_admin s ∧ sess_credentials s' = c') ∧
  (forall k s, m !! k = Some s -> cred_id (sess_credentials s) ≠ a ->
     m' !! k = Some s) ∧
  (forall k, m !! k = None -> m' !! k = None).

(** ** Stand-ins for the collaborators

    A small in-memory account system, credential repository and hasher,
    used to run the operations on concrete inputs. *)

Module Demo.

Record Ext : Type := mkExt {
  creds : list Credentials;
  next_account : Z;
  deleted : list Z
}.

Definition byLogin (login : string) (x : Ext) : Res Credentials * Ext :=
  match List.find (fun c => bool_decide (cred_login c = login)) (creds x) with
  | Some c => (Ok c, x)
  | None => (Err ErrCredentialsNotFound, x)
  end.

Definition byID (id : Z) (x : Ext) : Res Credentials * Ext :=
  match List.find (fun c => bool_decide (cred_id c = id)) (creds x) with
  | Some c => (Ok c, x)
  | None => (Err ErrCredentialsNotFound, x)
  end.

Definition update (c : Credentials) (x : Ext) : option error * Ext :=
  (None,
   mkExt (List.map (fun c' => if bool_decide (cred_id c' = cred_id c) then c else c') (creds x))
         (next_account x) (deleted x)).

Definition theApp : App Ext :=
  mkApp Ext
    (fun _ x => (Ok (mkAccount (next_account x)),
                 mkExt (creds x) (next_account x + 1) (deleted x)))
    (fun id x => (Ok (mkAccount id), x))
    (fun id x => (None, mkExt (creds x) (next_account x) (id :: deleted x))).

Definition theDatabase : Database Ext :=
  mkDatabase Ext
    (fun x => (None, x))
    byLogin
    (fun c x => (None, mkExt (creds x ++ [c]) (next_account x) (deleted x)))
    byID
    (fun id x => (None, mkExt (List.filter (fun c => negb (bool_decide (cred_id c = id))) (creds x))
                              (next_account x) (deleted x)))
    update.

Definition theHasher : Hasher Ext :=
  mkHasher Ext
    (fun password x => (Ok (String.append "h$" password), x))
    (fun hash password x => (bool_decide (hash = String.append "h$" password), x)).

Definition root : Admin := mkAdmin (mkAccount 0) "root" "toor".

Definition goard (d : Duration) : Goard Ext :=
  mkGoard Ext theApp theDatabase NewDefaultValidator theHasher root d DEFAULT_CLEANUP.

Definition alice : Credentials := mkCredentials 42 "alice" "h$secret" ["reader"].

Definition ext0 : Ext := mkExt [alice] 42 [].

(** A session of alice issued at second 1 with a ttl of one hour. *)
Definition aliceSession : Session :=
  mkSession "s-alice" (mkAccount 42) alice (Add Second Hour) Second false.

(** A session carrying the admin flag (no operation of the core creates
    one; it is what [setRole] and [unsetRole] require of the caller). *)
Definition rootSession : Session :=
  mkSession "s-root" (mkAccount 0) (mkCredentials 0 "root" "" ["admin"])
            (Add Second Hour) Second true.

Definition world (m : gmap string Session) : World Ext := mkWorld m ext0 [] [].

End Demo.

(** No two stored sessions share a login. *)
Definition unique_logins (m : gmap string Session) : Prop :=
  forall k1 k2 s1 s2, m !! k1 = Some s1 -> m !! k2 = Some s2 ->
    cred_login (sess_credentials s1) = cred_login (sess_credentials s2) -> k1 = k2.

(** ** The HTTP handlers ([SignIn], [SignUp], [SignOut], [Guard],
    [SetRole], [UnsetRole])

    A handler is read as the list of what it does to the response, in
    order, and the world it leaves.  The request type [R] is abstract: the
    transport decodes it and the container extracts the session id from it
    (both are interfaces of the package). *)

Definition StatusOK : Z := 200.
Definition StatusBadRequest : Z := 400.
Definition StatusUnauthorized : Z := 401.
Definition StatusForbidden : Z := 403.
Definition StatusConflict : Z := 409.
Definition StatusInternalServerError : Z := 500.

(** The [Transport] interface. *)
Record Transport (R : Type) : Type := mkTransport {
  Transport_SignIn : R -> Res (string * string);
  Transport_SignUp : R -> Res (string * string * string);
  Transport_SetRole : R -> Res (Z * string);
  Transport_UnsetRole : R -> Res (Z * string)
}.
Arguments Transport_SignIn {R} _ _.
Arguments Transport_SignUp {R} _ _.
Arguments Transport_SetRole {R} _ _.
Arguments Transport_UnsetRole {R} _ _.

(** The reading half of the [Container] interface; the writing half,
    [SetSession(w, session)], is an output of the handler. *)
Record Carrier (R : Type) : Type := mkCarrier {
  GetSession : R -> string
}.
Arguments GetSession {R} _ _.

(** The fields [transport] and [container] of [Goard], next to the rest. *)
Record Service (R X : Type) : Type := mkService {
  core : Goard X;
  transport : Transport R;
  container : Carrier R
}.
Arguments core {R X} _.
Arguments transport {R X} _.
Arguments container {R X} _.

Inductive Output : Type :=
  | WriteHeader (status : Z)     (* w.WriteHeader(status) *)
  | SetSession (s : Session)     (* g.container.SetSession(w, s) *)
  | ServeHTTP.                   (* next.ServeHTTP(w, r) *)

#[global] Instance Output_eq_dec : EqDecision Output.
Proof. solve_decision. Defined.

Section Handlers.
Context {R X : Type}.
Variable h : Service R X.

(** [ctx] is [r.Context()]. *)
Definition SignIn (ctx : Ctx) (now : Time) (uuid : string) (r : R)
    (w : World X) : list Output * World X :=
  match Transport_SignIn (transport h) r with
  | Err _ => ([WriteHeader StatusBadRequest], w)
  | Ok (login, password) =>
    match signin (core h) ctx now uuid login password w with
    | (Err err, w') =>
      ([WriteHeader
          (if errors_Is err ErrBadCredentials then StatusBadRequest
           else if errors_Is err ErrCredentialsNotFound then StatusForbidden
           else if errors_Is err ErrCredentialsMismatch then StatusForbidden
           else StatusInternalServerError)], w')
    | (Ok session, w') => ([SetSession session; WriteHeader StatusOK], w')
    end
  end.

(** On success the handler writes nothing: the server answers 200 by
    itself. *)
Definition SignUp (ctx : Ctx) (r : R) (w : World X) : list Output * World X :=
  match Transport_SignUp (transport h) r with
  | Err _ => ([WriteHeader StatusBadRequest], w)
  | Ok (account, login, password) =>
    match signup (core h) ctx account login password w with
    | (Some err, w') =>
      ([WriteHeader
          (if errors_Is err ErrBadCredentials then StatusBadRequest
           else if errors_Is err ErrCredentialsConflict then StatusConflict
           else if errors_Is err ErrCredentialsMismatch then StatusForbidden
           else StatusInternalServerError)], w')
    | (None, w') => ([], w')
    end
  end.

(** An error of [signout] is printed and dropped. *)
Definition SignOut (ctx : Ctx) (r : R) (w : World X) : list Output * World X :=
  let session := GetSession (container h) r in
  if bool_decide (session = "") then ([WriteHeader StatusUnauthorized], w)
  else ([WriteHeader StatusUnauthorized], (signout ctx session w).2).

Definition Guard (filter : Session -> bool) (now : Time) (r : R)
    (w : World X) : list Output * World X :=
  let sessionID := GetSession (container h) r in
  if bool_decide (sessionID = "") then ([WriteHeader StatusUnauthorized], w)
  else
    match session now sessionID w with
    | (Err err, w') =>
      ([WriteHeader
          (if errors_Is err ErrSessionNotFound then StatusUnauthorized
           else if errors_Is err ErrSessionExpired then StatusUnauthorized
           else StatusInternalServerError)], w')
    | (Ok s, w') =>
      if negb (filter s) then ([WriteHeader StatusForbidden], w')
      else ([ServeHTTP], w')
    end.

(** [SetRole] and [UnsetRole] run under [context.Background()]. *)
Definition SetRole (r : R) (w : World X) : list Output * World X :=
  let sessionID := GetSession (container h) r in
  if bool_decide (sessionID = "") then ([WriteHeader StatusUnauthorized], w)
  else
    match Transport_SetRole (transport h) r with
    | Err _ => ([WriteHeader StatusBadRequest], w)
    | Ok (account, role) =>
      match setRole (core h) sessionID account role w with
      | (Err err, w') =>
        ([WriteHeader
            (if errors_Is err ErrAccessDenied then StatusForbidden
             else if errors_Is err ErrRoleConflict then StatusConflict
             else StatusInternalServerError)], w')
      | (Ok _, w') => ([WriteHeader StatusOK], w')
      end
    end.

Definition UnsetRole (r : R) (w : World X) : list Output * World X :=
  let sessionID := GetSession (container h) r in
  if bool_decide (sessionID = "") then ([WriteHeader StatusUnauthorized], w)
  else
    match Transport_UnsetRole (transport h) r with
    | Err _ => ([WriteHeader StatusBadRequest], w)
    | Ok (account, role) =>
      match unsetRole (core h) sessionID account role w with
      | (Err err, w') =>
        ([WriteHeader
            (if errors_Is err ErrAccessDenied then StatusForbidden
             else StatusInternalServerError)], w')
      | (Ok _, w') => ([WriteHeader StatusOK], w')
      end
    end.

End Handlers.

(** A request as the stand-in transport and container read it. *)
Module DemoHttp.

Record Request : Type := mkRequest {
  cookie : string;       (* value of the session cookie, "" if absent *)
  post : bool;           (* method accepted by the transport *)
  field1 : string;       (* login, or role *)
  field2 : string;       (* password *)
  number : Z             (* target account *)
}.

Definition theTransport : Transport Request :=
  mkTransport Request
    (fun r => if post r then Ok (field1 r, field2 r) else Err ErrMethod)
    (fun r => if post r then Ok ("{}", field1 r, field2 r) else Err ErrMethod)
    (fun r => if post r then Err ErrMethod else Ok (number r, field1 r))
    (fun r => if post r then Err ErrMethod else Ok (number r, field1 r)).

Definition service (d : Duration) : Service Request Demo.Ext :=
  mkService Request Demo.Ext (Demo.goard d) theTransport (mkCarrier Request cookie).

Definition login (l p : string) : Request := mkRequest "" true l p 0.
Definition with_cookie (c : string) : Request := mkRequest c true "" "" 0.
Definition patch (c : string) (account : Z) (role : string) : Request :=
  mkRequest c false role "" account.

End DemoHttp.

(** * Properties *)

(** ** CredentialRoleDiff *)

Lemma fillMap_acc (items : list string) (m : gset string) (x : string) :
  x ∈ foldl (fun m item => {[ item ]} ∪ m) m items ↔ x ∈ m ∨ x ∈ items.
Proof.
  revert m; induction items as [|y items IH]; intros m; simpl.
  - set_solver.
  - rewrite IH. set_solver.
Qed.

Lemma elem_of_fillMap (items : list string) (x : string) :
  x ∈ fillMap items ↔ x ∈ items.
Proof. unfold fillMap. rewrite fillMap_acc. set_solver. Qed.

Lemma collectMissing_acc (other : gset string) (ref items acc : list string) :
  (forall x, x ∈ other ↔ x ∈ ref) ->
  foldl (fun acc item => if decide (item ∈ other) then acc else acc ++ [item]) acc items
  = acc ++ filter (fun x => x ∉ ref) items.
Proof.
  intros Href. revert acc; induction items as [|y items IH]; intros acc; simpl.
  - by rewrite app_nil_r.
  - rewrite IH. destruct (decide (y ∈ other)) as [Hin|Hnin].
    + rewrite filter_cons_False; [done|]. intros Hn. apply Hn. by apply Href.
    + rewrite filter_cons_True; [|by rewrite <- Href].
      by rewrite <- app_assoc.
Qed.

(** C8. [diffSlices old new] returns, in the order of the input slices,
    the elements of [old] that are not in [new] and the elements of [new]
    that are not in [old]; membership is characterised accordingly, and
    [diffSlices [a;b] [b;c] = ([a],[c])]. *)
Theorem diffSlices_spec :
  (forall old new : list string, diffSlices old new = diff_spec old new) /\
  (forall (old new : list string) (x : string),
     (x ∈ (diffSlices old new).1 ↔ x ∈ old ∧ x ∉ new) ∧
     (x ∈ (diffSlices old new).2 ↔ x ∈ new ∧ x ∉ old)) /\
  diffSlices ["a"; "b"] ["b"; "c"] = (["a"], ["c"]).
Proof.
  assert (Heq : forall old new, diffSlices old new = diff_spec old new).
  { intros old new. unfold diffSlices, diff_spec, collectMissing.
    rewrite (collectMissing_acc (fillMap new) new old [])
      by (intros; apply elem_of_fillMap).
    rewrite (collectMissing_acc (fillMap old) old new [])
      by (intros; apply elem_of_fillMap).
    done. }
  split; [exact Heq|]. split.
  - intros old new x. rewrite Heq. unfold diff_spec; simpl.
    rewrite !list_elem_of_filter. tauto.
  - rewrite Heq. unfold diff_spec.
    assert (Hne : forall a b : string, bool_decide (a = b) = false -> a ≠ b).
    { intros a b Hb Hab. by rewrite bool_decide_eq_true_2 in Hb. }
    repeat (first
      [ rewrite filter_nil
      | rewrite filter_cons_True by
          (rewrite !elem_of_cons, elem_of_nil;
           intros [?|[?|?]]; [discriminate..|done])
      | rewrite filter_cons_False by
          (intros Hn; apply Hn; rewrite !elem_of_cons; auto) ]).
    done.
Qed.

(** ** The store and its scans *)

Lemma set_sessions_id {X : Type} (w : World X) : set_sessions (sessions w) w = w.
Proof. by destruct w. Qed.

Lemma elem_of_snapshot (m : gmap string Session) (s : Session) :
  s ∈ snapshot m ↔ ∃ k, m !! k = Some s.
Proof.
  unfold snapshot. rewrite list_elem_of_fmap. split.
  - intros [[k s'] [-> Hin]]. exists k. by apply elem_of_map_to_list.
  - intros [k Hk]. exists (k, s). split; [done|]. by apply elem_of_map_to_list.
Qed.

(** A callback that only rewrites the map and never fails turns the loop
    of [ForEach] into a fold over the snapshot. *)
Lemma forEachLoop_fold {X : Type} (callback : Session -> M X unit)
    (f : gmap string Session -> Session -> gmap string Session) :
  (forall s w, callback s w = (Ok tt, set_sessions (f (sessions w) s) w)) ->
  forall tmp w,
    forEachLoop callback tmp w = (Ok tt, set_sessions (foldl f (sessions w) tmp) w).
Proof.
  intros Hcb tmp; induction tmp as [|s tmp IH]; intros w; simpl.
  - unfold ret. by rewrite set_sessions_id.
  - unfold bind. rewrite Hcb, IH. done.
Qed.

Section Scan.
(** A scan over the sessions of [m0] whose step touches only the key of
    the session it visits, and leaves there what the target [T] holds. *)
Variable m0 T : gmap string Session.
Variable f : gmap string Session -> Session -> gmap string Session.

Hypothesis f_other : forall m s k, k ≠ sess_id s -> f m s !! k = m !! k.
Hypothesis f_self : forall m s,
  m0 !! sess_id s = Some s ->
  (m !! sess_id s = m0 !! sess_id s ∨ m !! sess_id s = T !! sess_id s) ->
  f m s !! sess_id s = T !! sess_id s.
Hypothesis T_dom : forall k, m0 !! k = None -> T !! k = None.

Lemma scan_lookup (tmp : list Session) :
  (forall s, s ∈ tmp -> m0 !! sess_id s = Some s) ->
  forall m k,
    (m !! k = m0 !! k ∨ m !! k = T !! k) ->
    (k ∈ sess_id <$> tmp -> foldl f m tmp !! k = T !! k) ∧
    (k ∉ sess_id <$> tmp -> foldl f m tmp !! k = m !! k).
Proof.
  induction tmp as [|s tmp IH]; intros Hin m k Hinv.
  - split; [by intros ?%elem_of_nil | done].
  - simpl foldl. rewrite fmap_cons.
    assert (Hs : m0 !! sess_id s = Some s) by (apply Hin; left).
    assert (Hin' : forall s', s' ∈ tmp -> m0 !! sess_id s' = Some s')
      by (intros; apply Hin; by right).
    assert (Hinv1 : f m s !! k = m0 !! k ∨ f m s !! k = T !! k).
    { destruct (decide (k = sess_id s)) as [->|Hne].
      - right. by apply f_self.
      - by rewrite f_other. }
    destruct (IH Hin' (f m s) k Hinv1) as [IH1 IH2].
    destruct (decide (k ∈ sess_id <$> tmp)) as [Hk|Hk].
    + split; [intros _; by apply IH1|].
      intros Hnot. exfalso. apply Hnot. by right.
    + rewrite IH2 by done. split.
      * intros [->|?]%elem_of_cons; [by apply f_self | done].
      * intros Hnot. apply f_other. intros ->. apply Hnot. left.
Qed.

(** Whatever the order of the snapshot, the scan ends in [T]. *)
Lemma scan_result (tmp : list Session) :
  store_wf m0 ->
  (forall s, s ∈ tmp ↔ ∃ k, m0 !! k = Some s) ->
  foldl f m0 tmp = T.
Proof.
  intros Hwf Htmp. apply map_eq; intros k.
  assert (Hin : forall s, s ∈ tmp -> m0 !! sess_id s = Some s).
  { intros s [k' Hk']%Htmp. by rewrite (Hwf _ _ Hk'). }
  destruct (scan_lookup tmp Hin m0 k (or_introl eq_refl)) as [H1 H2].
  destruct (m0 !! k) as [s|] eqn:Hk.
  - apply H1. apply list_elem_of_fmap. exists s. split.
    + symmetry. by apply Hwf.
    + apply Htmp. by exists k.
  - rewrite T_dom by done. rewrite H2; [done|].
    intros [s [-> Hs]]%list_elem_of_fmap. apply Hin in Hs. congruence.
Qed.
End Scan.

Lemma revoke_scan (keep : Session -> bool) (m0 : gmap string Session) (tmp : list Session) :
  store_wf m0 ->
  (forall s, s ∈ tmp ↔ ∃ k, m0 !! k = Some s) ->
  foldl (revokeUnless keep) m0 tmp = kept keep m0.
Proof.
  apply scan_result.
  - intros m s k Hne. unfold revokeUnless. destruct (keep s); [done|].
    by rewrite lookup_delete_ne.
  - intros m s Hs Hm. unfold revokeUnless, kept in *.
    destruct (keep s) eqn:Hkeep.
    + assert (HT : filter (fun kv : string * Session => keep kv.2 = true) m0
                     !! sess_id s = Some s)
        by (apply map_lookup_filter_Some; done).
      destruct Hm as [Hm|Hm]; rewrite Hm; congruence.
    + rewrite lookup_delete_eq. symmetry.
      apply map_lookup_filter_None. right. intros s' Hs' Hk. simpl in Hk.
      congruence.
  - intros k Hk. unfold kept. apply map_lookup_filter_None. by left.
Qed.

Lemma replace_scan (c : Credentials) (m0 : gmap string Session) (tmp : list Session) :
  store_wf m0 ->
  (forall s, s ∈ tmp ↔ ∃ k, m0 !! k = Some s) ->
  foldl (replaceStep c) m0 tmp = refreshed c <$> m0.
Proof.
  apply scan_result.
  - intros m s k Hne. unfold replaceStep. case_bool_decide; [|done].
    by rewrite lookup_insert_ne.
  - intros m s Hs Hm. unfold replaceStep. rewrite lookup_fmap, Hs in *. simpl in *.
    case_bool_decide as Hid.
    + by rewrite lookup_insert_eq.
    + assert (refreshed c s = s) as Hr
        by (unfold refreshed; by rewrite bool_decide_eq_false_2).
      rewrite Hr in *. by destruct Hm.
  - intros k Hk. by rewrite lookup_fmap, Hk.
Qed.

Section StoreScans.
Context {X : Type}.
Implicit Types (w : World X) (s : Session).

Lemma ForEach_revoke (callback : Session -> M X unit) (keep : Session -> bool) w :
  (forall s w', callback s w' =
     if keep s then ret tt w' else RevokeSession (sess_id s) w') ->
  store_wf (sessions w) ->
  ForEach callback w = (Ok tt, set_sessions (kept keep (sessions w)) w).
Proof.
  intros Hcb Hwf. unfold ForEach.
  rewrite (forEachLoop_fold callback (revokeUnless keep)).
  - rewrite revoke_scan; [done..|]. intros s. apply elem_of_snapshot.
  - intros s w'. rewrite Hcb. unfold revokeUnless, ret, RevokeSession.
    destruct (keep s); [by rewrite set_sessions_id | done].
Qed.

Lemma ForEach_revokeSameLogin (login : string) w :
  store_wf (sessions w) ->
  ForEach (revokeSameLogin login) w =
  (Ok tt, set_sessions
            (kept (fun s => bool_decide (cred_login (sess_credentials s) ≠ login))
                  (sessions w)) w).
Proof.
  apply ForEach_revoke. intros s w'. unfold revokeSameLogin.
  by case_bool_decide.
Qed.

Lemma ForEach_revokeExpired (t : Time) w :
  store_wf (sessions w) ->
  ForEach (revokeExpired t) w =
  (Ok tt, set_sessions (kept (fun s => Unix (sess_exp s) >? Unix t) (sessions w)) w).
Proof.
  apply ForEach_revoke. intros s w'. unfold revokeExpired.
  by destruct (Unix (sess_exp s) >? Unix t).
Qed.

Lemma ForEach_replaceCredentials (c : Credentials) w :
  store_wf (sessions w) ->
  ForEach (replaceCredentials c) w =
  (Ok tt, set_sessions (refreshed c <$> sessions w) w).
Proof.
  intros Hwf. unfold ForEach.
  rewrite (forEachLoop_fold (replaceCredentials c) (replaceStep c)).
  - rewrite replace_scan; [done..|]. intros s. apply elem_of_snapshot.
  - intros s w'. unfold replaceCredentials, replaceStep, refreshed, CreateSession, ret.
    case_bool_decide; [done | by rewrite set_sessions_id].
Qed.

(** Well-formedness is kept by the three ways the store changes. *)
Lemma store_wf_empty : store_wf ∅.
Proof. intros k s. by rewrite lookup_empty. Qed.

Lemma store_wf_insert (m : gmap string Session) s :
  store_wf m -> store_wf (<[sess_id s := s]> m).
Proof.
  intros Hwf k s'. rewrite lookup_insert. case_decide.
  - by intros [= <-].
  - apply Hwf.
Qed.

Lemma store_wf_delete (m : gmap string Session) (k : string) :
  store_wf m -> store_wf (delete k m).
Proof. intros Hwf k' s' Hk'. apply lookup_delete_Some in Hk' as [_ Hk']. by apply Hwf. Qed.

Lemma store_wf_kept (keep : Session -> bool) (m : gmap string Session) :
  store_wf m -> store_wf (kept keep m).
Proof. intros Hwf k s [Hk _]%map_lookup_filter_Some. by apply Hwf. Qed.

Lemma store_wf_refreshed (c : Credentials) (m : gmap string Session) :
  store_wf m -> store_wf (refreshed c <$> m).
Proof.
  intros Hwf k s. rewrite lookup_fmap. destruct (m !! k) as [s0|] eqn:Hk; [|done].
  intros [= <-]. apply Hwf in Hk. unfold refreshed. by case_bool_decide.
Qed.

Lemma lookup_kept (keep : Session -> bool) (m : gmap string Session) (k : string) s :
  kept keep m !! k = Some s ↔ m !! k = Some s ∧ keep s = true.
Proof. unfold kept. by rewrite map_lookup_filter_Some. Qed.
End StoreScans.

(** ** Session validation *)

Lemma Unix_mono (a b : Time) : a ≤ b -> Unix a ≤ Unix b.
Proof. intros H. unfold Unix, Second. by apply Z.div_le_mono. Qed.

Lemma Count_zero {X : Type} (w : World X) : Count w = 0%nat ↔ sessions w = ∅.
Proof. unfold Count. apply map_size_empty_iff. Qed.

Lemma Count_lookup {X : Type} (w : World X) (k : string) (s : Session) :
  sessions w !! k = Some s -> Count w ≠ 0%nat.
Proof. intros Hk Hc. apply Count_zero in Hc. by rewrite Hc, lookup_empty in Hk. Qed.

(** C4 (as amended). [session] fails with [ErrSessionNotFound] on an empty
    store and on an absent id; on a stored session it compares whole-second
    Unix timestamps: when that of [exp] is at or before that of [now] (in
    particular whenever [exp <= now]) it fails with [ErrSessionExpired],
    leaves the store as it is and only starts the goroutine that will revoke
    the id; when it is strictly later, the stored session is returned and
    nothing changes. *)
Theorem session_spec {X : Type} (now : Time) (sessionID : string) (w : World X) :
  (sessions w = ∅ -> session now sessionID w = (Err ErrSessionNotFound, w)) ∧
  (sessions w !! sessionID = None ->
     session now sessionID w = (Err ErrSessionNotFound, w)) ∧
  (forall s, sessions w !! sessionID = Some s ->
     Unix (sess_exp s) ≤ Unix now ->
     session now sessionID w =
       (Err ErrSessionExpired,
        mkWorld (sessions w) (ext w) (trace w) (pending w ++ [TaskRevoke sessionID])) ∧
     sessions (run_task (TaskRevoke sessionID) w).2 !! sessionID = None) ∧
  (forall s, sessions w !! sessionID = Some s ->
     sess_exp s ≤ now ->
     (session now sessionID w).1 = Err ErrSessionExpired) ∧
  (forall s, sessions w !! sessionID = Some s ->
     Unix now < Unix (sess_exp s) ->
     session now sessionID w = (Ok s, w)).
Proof.
  assert (Hexp : forall s, sessions w !! sessionID = Some s ->
     Unix (sess_exp s) ≤ Unix now ->
     session now sessionID w =
       (Err ErrSessionExpired,
        mkWorld (sessions w) (ext w) (trace w) (pending w ++ [TaskRevoke sessionID]))).
  { intros s Hs Hle. unfold session, InvokeSession.
    rewrite bool_decide_eq_false_2 by (by eapply Count_lookup).
    rewrite Hs. destruct (Z.gtb_spec (Unix (sess_exp s)) (Unix now)); [lia | done]. }
  split; [|split; [|split; [|split]]].
  - intros He. unfold session.
    by rewrite bool_decide_eq_true_2 by (by apply Count_zero).
  - intros Hn. unfold session, InvokeSession. rewrite Hn. by case_bool_decide.
  - intros s Hs Hle. split; [by apply (Hexp s) | apply lookup_delete_eq].
  - intros s Hs Hle. rewrite (Hexp s Hs); [done|]. by apply Unix_mono.
  - intros s Hs Hlt. unfold session, InvokeSession.
    rewrite bool_decide_eq_false_2 by (by eapply Count_lookup).
    rewrite Hs. destruct (Z.gtb_spec (Unix (sess_exp s)) (Unix now)); [done | lia].
Qed.

(** The four branches of [session] on the stand-in world: an empty store,
    an unknown id, alice's session one hour and a half after it was issued,
    and the same session half an hour after. *)
Lemma session_spec_witness :
  session (2 * Hour) "s-alice" (Demo.world ∅) = (Err ErrSessionNotFound, Demo.world ∅) ∧
  session (2 * Hour) "nobody" (Demo.world {[ "s-alice" := Demo.aliceSession ]})
    = (Err ErrSessionNotFound, Demo.world {[ "s-alice" := Demo.aliceSession ]}) ∧
  (session (2 * Hour) "s-alice" (Demo.world {[ "s-alice" := Demo.aliceSession ]})).1
    = Err ErrSessionExpired ∧
  session (Hour / 2) "s-alice" (Demo.world {[ "s-alice" := Demo.aliceSession ]})
    = (Ok Demo.aliceSession, Demo.world {[ "s-alice" := Demo.aliceSession ]}).
Proof.
  split; [|split; [|split]].
  - apply (session_spec (2 * Hour) "s-alice" (Demo.world ∅)). reflexivity.
  - apply (session_spec (2 * Hour) "nobody"
             (Demo.world {[ "s-alice" := Demo.aliceSession ]})).
    apply lookup_singleton_ne. discriminate.
  - apply (proj1 (proj2 (proj2 (proj2
             (session_spec (2 * Hour) "s-alice"
                (Demo.world {[ "s-alice" := Demo.aliceSession ]}))))) Demo.aliceSession).
    + apply lookup_singleton_eq.
    + vm_compute. discriminate.
  - apply (proj2 (proj2 (proj2 (proj2
             (session_spec (Hour / 2) "s-alice"
                (Demo.world {[ "s-alice" := Demo.aliceSession ]}))))) Demo.aliceSession).
    + apply lookup_singleton_eq.
    + vm_compute. reflexivity.
Defined.

(** C4, the property as worded in the specification fails: a stored session that expires 0.3 s
    after [now], inside the same second, is strictly in the future and is
    nevertheless reported as expired. *)
Lemma session_same_second_expired :
  let s := mkSession "s" (mkAccount 42) Demo.alice 1500000000 500000000 false in
  let now : Time := 1200000000 in
  let w := Demo.world {[ "s" := s ]} in
  sessions w !! "s" = Some s ∧
  now < sess_exp s ∧
  (session now "s" w).1 = Err ErrSessionExpired ∧
  session now "s" w ≠ (Ok s, w).
Proof.
  intros s now w.
  assert (Hr : (session now "s" w).1 = Err ErrSessionExpired)
    by (vm_compute; reflexivity).
  split; [apply lookup_singleton_eq|]. split; [done|]. split; [exact Hr|].
  intros Heq. rewrite Heq in Hr. discriminate.
Qed.

(** ** Expiry sweep *)

Lemma store_wf_singleton (s : Session) : store_wf {[ sess_id s := s ]}.
Proof. intros k s' [<- <-]%lookup_singleton_Some. done. Qed.

(** C9 (as amended). One sweep at tick time [t] never fails and touches
    only the store.  On an empty store nothing happens.  Otherwise every
    session whose whole-second Unix expiry is at or before that of [t] (in
    particular every session with [exp <= t]) is revoked, and every session
    whose Unix expiry second is strictly later stays in the store
    unchanged. *)
Theorem cleanup_tick_spec {X : Type} (t : Time) (w : World X) :
  store_wf (sessions w) ->
  ∃ w', cleanup_tick t w = (Ok tt, w') ∧
    ext w' = ext w ∧ trace w' = trace w ∧ pending w' = pending w ∧
    (sessions w = ∅ -> w' = w) ∧
    (forall k s, sessions w !! k = Some s ->
       Unix (sess_exp s) ≤ Unix t -> sessions w' !! k = None) ∧
    (forall k s, sessions w !! k = Some s ->
       sess_exp s ≤ t -> sessions w' !! k = None) ∧
    (forall k s, sessions w !! k = Some s ->
       Unix t < Unix (sess_exp s) -> sessions w' !! k = Some s) ∧
    (forall k, sessions w !! k = None -> sessions w' !! k = None).
Proof.
  intros Hwf. unfold cleanup_tick. case_bool_decide as Hc.
  - apply Count_zero in Hc. exists w. rewrite Hc.
    repeat split; try done; intros k s; by rewrite lookup_empty.
  - rewrite ForEach_revokeExpired by done. eexists. split; [done|]. simpl.
    assert (Hgone : forall k s, sessions w !! k = Some s ->
       Unix (sess_exp s) ≤ Unix t ->
       kept (fun s => Unix (sess_exp s) >? Unix t) (sessions w) !! k = None).
    { intros k s Hk Hle. apply eq_None_not_Some. intros [s' Hs'].
      apply lookup_kept in Hs' as [Hs' Hgt]. rewrite Hk in Hs'. injection Hs' as <-.
      apply Z.gtb_lt in Hgt. lia. }
    repeat split; try done.
    + intros He. by apply Count_zero in He.
    + intros k s Hk Hle. apply (Hgone k s Hk). by apply Unix_mono.
    + intros k s Hk Hlt. apply lookup_kept. split; [done|]. apply Z.gtb_lt. lia.
    + intros k Hk. apply map_lookup_filter_None. by left.
Qed.

(** One sweep at the second hour over a store with alice's session (expired
    by then) and the admin-flagged session re-issued later. *)
Lemma cleanup_tick_spec_witness :
  let late := mkSession "s-late" (mkAccount 7) (mkCredentials 7 "bob" "" [])
                        (Add (2 * Hour) Hour) (2 * Hour) false in
  let w := Demo.world (<[ "s-late" := late ]> {[ "s-alice" := Demo.aliceSession ]}) in
  ∃ w', cleanup_tick (2 * Hour) w = (Ok tt, w') ∧
        sessions w' !! "s-alice" = None ∧
        sessions w' !! "s-late" = Some late.
Proof.
  intros late w.
  destruct (cleanup_tick_spec (2 * Hour) w) as (w' & Hrun & _ & _ & _ & _ & Hgone & _ & Hstay & _).
  { apply (store_wf_insert _ late). apply (store_wf_singleton Demo.aliceSession). }
  exists w'. split; [exact Hrun|]. split.
  - apply (Hgone "s-alice" Demo.aliceSession).
    + subst w; simpl.
      rewrite lookup_insert_ne by discriminate. apply lookup_singleton_eq.
    + vm_compute. discriminate.
  - apply (Hstay "s-late" late).
    + subst w; simpl. apply lookup_insert_eq.
    + vm_compute. reflexivity.
Defined.

(** C9, the property as worded in the specification fails: a session that
    expires 0.3 s after the
    tick, inside the same second, is strictly after [t] and is revoked by
    the sweep all the same. *)
Lemma cleanup_same_second_revoked :
  let s := mkSession "s" (mkAccount 42) Demo.alice 1500000000 500000000 false in
  let t : Time := 1200000000 in
  let w := Demo.world {[ "s" := s ]} in
  sessions w !! "s" = Some s ∧
  t < sess_exp s ∧
  sessions (cleanup_tick t w).2 !! "s" = None.
Proof.
  intros s t w.
  split; [apply lookup_singleton_eq|]. split; [done|].
  vm_compute. reflexivity.
Qed.

(** ** Running the monad *)

Section Run.
Context {X : Type}.
Implicit Types (w : World X).

Lemma bind_inv {A B : Type} (m : M X A) (k : A -> M X B) w (r : Res B) w' :
  bind m k w = (r, w') ->
  (∃ a w1, m w = (Ok a, w1) ∧ k a w1 = (r, w')) ∨
  (∃ e, m w = (Err e, w') ∧ r = Err e).
Proof.
  unfold bind. destruct (m w) as [[a|e] w1]; intros H.
  - left. by exists a, w1.
  - right. exists e. by injection H as <- <-.
Qed.

Lemma check_inv (ctx : Ctx) (n : nat) w (r : Res unit) w' :
  check ctx n w = (r, w') ->
  w' = w ∧ ((ctx n = None ∧ r = Ok tt) ∨ (∃ e, ctx n = Some e ∧ r = Err e)).
Proof.
  unfold check. destruct (ctx n) as [e|]; intros [= <- <-]; eauto.
Qed.

Lemma check_None (ctx : Ctx) (n : nat) w : ctx n = None -> check ctx n w = (Ok tt, w).
Proof. unfold check. by intros ->. Qed.

Lemma logged_inv {A : Type} (ev : Event) (f : X -> A * X) w (a : A) w' :
  logged ev f w = (a, w') ->
  ∃ x', f (ext w) = (a, x') ∧
        w' = mkWorld (sessions w) x' (trace w ++ [ev]) (pending w).
Proof.
  unfold logged. destruct (f (ext w)) as [a' x']. intros [= <- <-]. by exists x'.
Qed.

Lemma logged_run {A : Type} (ev : Event) (f : X -> A * X) w (a : A) (x' : X) :
  f (ext w) = (a, x') ->
  logged ev f w = (a, mkWorld (sessions w) x' (trace w ++ [ev]) (pending w)).
Proof. unfold logged. by intros ->. Qed.

Lemma callv_inv {A : Type} (ev : Event) (f : X -> A * X) w (r : Res A) w' :
  callv ev f w = (r, w') ->
  ∃ a x', r = Ok a ∧ f (ext w) = (a, x') ∧
          w' = mkWorld (sessions w) x' (trace w ++ [ev]) (pending w).
Proof.
  unfold callv, logged. destruct (f (ext w)) as [a x']. intros [= <- <-].
  by exists a, x'.
Qed.

Lemma calle_inv (ev : Event) (f : X -> option error * X) w (r : Res unit) w' :
  calle ev f w = (r, w') ->
  ∃ o x', f (ext w) = (o, x') ∧
          w' = mkWorld (sessions w) x' (trace w ++ [ev]) (pending w) ∧
          r = match o with Some e => Err e | None => Ok tt end.
Proof.
  unfold calle, logged. destruct (f (ext w)) as [[e|] x']; intros [= <- <-];
    eexists _, _; eauto.
Qed.
End Run.

(** ** Sign-in *)

(** Inversion of one monadic step in hypothesis [H]. *)
Ltac inv_bind H Hstep :=
  apply bind_inv in H as [(? & ? & Hstep & H)|(? & Hstep & ->)].

(** Inversion of a cancellation check followed by a continuation: the
    first goal continues, the second is the cancelled run. *)
Ltac inv_check H :=
  let Hs := fresh "Hs" in
  inv_bind H Hs;
  [ apply check_inv in Hs as [-> [[? _]|(? & _ & ?)]]; [|done]
  | apply check_inv in Hs as [-> [[_ ?]|(? & ? & [= ->])]]; [done|] ].

Lemma signin_cases {X : Type} (g : Goard X) ctx now uuid L p (w : World X) r w' :
  store_wf (sessions w) ->
  signin g ctx now uuid L p w = (r, w') ->
  pending w' = pending w ∧ signin_outcome g ctx now uuid L p w r w'.
Proof.
  intros Hwf H. unfold signin in H. unfold signin_outcome.
  destruct (bool_decide (L = "") || bool_decide (p = "")) eqn:Hempty.
  { injection H as <- <-. split; [done|]. left. split; [done|]. split; [|done].
    apply orb_true_iff in Hempty as [?%bool_decide_eq_true|?%bool_decide_eq_true]; auto. }
  apply orb_false_iff in Hempty as [HL%bool_decide_eq_false Hp%bool_decide_eq_false].
  inv_check H.
  2:{ split; [done|]. right; left. eauto 10. }
  inv_bind H Hscan; rewrite ForEach_revokeSameLogin in Hscan by done; [|done].
  injection Hscan as _ <-.
  fold (others L (sessions w)) in H.
  assert (Hfail : forall e (w1 : World X),
    sessions w1 = others L (sessions w) -> pending w1 = pending w ->
    pending w1 = pending w ∧ signin_outcome g ctx now uuid L p w (Err e) w1).
  { intros e w1 Hs Hp1. split; [done|]. right; right; left. eauto 10. }
  unfold signin_outcome in Hfail.
  inv_check H; [|by apply Hfail].
  destruct (bool_decide (L = admin_Login (admin g)) &&
            bool_decide (p = admin_Password (admin g))).
  - unfold signinAsAdmin in H.
    inv_check H; [|by apply Hfail].
    inv_bind H Hc; [|done]. injection Hc as _ <-. injection H as <- <-.
    split; [done|]. right; right; right. eauto 12.
  - inv_check H; [|by apply Hfail].
    inv_bind H Hc.
    2:{ apply logged_inv in Hc as (? & _ & ->). by apply Hfail. }
    apply logged_inv in Hc as (? & _ & ->).
    inv_check H; [|by apply Hfail].
    inv_bind H Hc.
    2:{ apply logged_inv in Hc as (? & _ & ->). by apply Hfail. }
    apply logged_inv in Hc as (? & _ & ->).
    inv_check H; [|by apply Hfail].
    inv_bind H Hc; apply callv_inv in Hc as (ok & ? & Hr & _ & ->); [|done].
    injection Hr as ->.
    destruct ok; simpl in H.
    2:{ injection H as <- <-. by apply Hfail. }
    inv_check H; [|by apply Hfail].
    inv_bind H Hc; [|done]. injection Hc as _ <-. injection H as <- <-.
    split; [done|]. right; right; right. eauto 12.
Qed.

Lemma signin_admin_run {X : Type} (g : Goard X) ctx now uuid (w : World X) :
  admin_Login (admin g) ≠ "" ->
  admin_Password (admin g) ≠ "" ->
  ctx 0%nat = None -> ctx 1%nat = None -> ctx 2%nat = None ->
  store_wf (sessions w) ->
  signin g ctx now uuid (admin_Login (admin g)) (admin_Password (admin g)) w =
  (Ok (adminSession g now uuid),
   set_sessions (<[uuid := adminSession g now uuid]>
                   (others (admin_Login (admin g)) (sessions w))) w).
Proof.
  intros HL Hp H0 H1 H2 Hwf. unfold signin.
  rewrite !bool_decide_eq_false_2 by done.
  rewrite !bool_decide_eq_true_2 by done. simpl.
  unfold bind at 1. rewrite check_None by done.
  unfold bind at 1. rewrite ForEach_revokeSameLogin by done.
  unfold bind at 1. rewrite check_None by done.
  unfold signinAsAdmin, bind, shift. rewrite check_None by done.
  done.
Qed.

(** C1. With the configured admin login and password (both non-empty, the
    context not cancelled), [signin] returns the session built by
    [signinAsAdmin] and stores it under its id: its roles are exactly
    ["admin"], and neither the collaborators' state nor the trace of calls
    changes, so no call reaches [Database], [App] or [Hasher].  The
    [admin] flag of that session is false: the struct literal of
    [signinAsAdmin] does not set the field. *)
Theorem signin_admin_session {X : Type} (g : Goard X) ctx now uuid (w : World X) :
  admin_Login (admin g) ≠ "" ->
  admin_Password (admin g) ≠ "" ->
  ctx 0%nat = None -> ctx 1%nat = None -> ctx 2%nat = None ->
  store_wf (sessions w) ->
  ∃ s w',
    signin g ctx now uuid (admin_Login (admin g)) (admin_Password (admin g)) w
      = (Ok s, w') ∧
    sess_admin s = false ∧
    Roles s = ["admin"] ∧
    sessions w' !! uuid = Some s ∧
    trace w' = trace w ∧ ext w' = ext w.
Proof.
  intros HL Hp H0 H1 H2 Hwf.
  eexists _, _. split; [by apply signin_admin_run|].
  simpl. rewrite lookup_insert_eq. done.
Qed.

Lemma signin_admin_session_witness :
  ∃ s w',
    signin (Demo.goard DEFAULT_TTL) Background (3 * Hour) "6f1c" "root" "toor"
           (Demo.world {[ "s-alice" := Demo.aliceSession ]}) = (Ok s, w') ∧
    sess_admin s = false ∧
    Roles s = ["admin"] ∧
    sessions w' !! "6f1c" = Some s ∧
    trace w' = [] ∧ ext w' = Demo.ext0.
Proof.
  apply (signin_admin_session (Demo.goard DEFAULT_TTL) Background (3 * Hour) "6f1c"
           (Demo.world {[ "s-alice" := Demo.aliceSession ]}));
    try reflexivity; try discriminate.
  apply (store_wf_singleton Demo.aliceSession).
Defined.

(** ** Sign-up *)

(** C2. When the repository already holds a record under the id of the
    account just created, [signup] returns [ErrCredentialsConflict] after
    exactly three collaborator calls, none of which is [DeleteAccount]: the
    variable [err] read by the deferred rollback is nil on this return. *)
Theorem signup_id_conflict_no_rollback {X : Type} (g : Goard X) ctx
    (account login password : string) (w : World X)
    (x0 x1 x2 : X) (acc : Account) (c : Credentials) :
  ctx 0%nat = None -> ctx 1%nat = None -> ctx 2%nat = None ->
  Validate (validator g) login password (ext w) = (true, x0) ->
  CreateAccount (app g) account x0 = (Ok acc, x1) ->
  CredentialsByID (database g) (GetID acc) x1 = (Ok c, x2) ->
  signup g ctx account login password w =
    (Some ErrCredentialsConflict,
     mkWorld (sessions w) x2
             (trace w ++ [CallValidate login password; CallCreateAccount account;
                          CallCredentialsByID (GetID acc)])
             (pending w)) ∧
  CallDeleteAccount (GetID acc) ∉
    [CallValidate login password; CallCreateAccount account;
     CallCredentialsByID (GetID acc)].
Proof.
  intros H0 H1 H2 Hv Hc Hid. split.
  - unfold signup. rewrite H0.
    rewrite (logged_run _ _ w true x0) by done. simpl. rewrite H1.
    erewrite logged_run by (simpl; exact Hc). simpl.
    unfold signup_steps. rewrite H2.
    erewrite logged_run by (simpl; exact Hid). simpl.
    by rewrite <- !app_assoc.
  - rewrite !elem_of_cons, elem_of_nil. intros [?|[?|[?|?]]]; done.
Qed.

(** Sign-up on the stand-in world, where the account system hands out the
    id 42 that alice's credentials already use. *)
Lemma signup_id_conflict_no_rollback_witness :
  signup (Demo.goard DEFAULT_TTL) Background "{}" "carol" "pw" (Demo.world ∅) =
    (Some ErrCredentialsConflict,
     mkWorld ∅ (Demo.mkExt [Demo.alice] 43 [])
             [CallValidate "carol" "pw"; CallCreateAccount "{}"; CallCredentialsByID 42]
             []).
Proof.
  apply (signup_id_conflict_no_rollback (Demo.goard DEFAULT_TTL) Background
           "{}" "carol" "pw" (Demo.world ∅)
           Demo.ext0 (Demo.mkExt [Demo.alice] 43 []) (Demo.mkExt [Demo.alice] 43 [])
           (mkAccount 42) Demo.alice); reflexivity.
Defined.

(** The sibling path: a conflict on the login does run the rollback, because
    [err] still holds the not-found error of the lookup by id. *)
Lemma signup_login_conflict_rolls_back {X : Type} (g : Goard X) ctx
    (account login password : string) (w : World X)
    (x0 x1 x2 x3 x4 : X) (acc : Account) (c : Credentials) (e1 : error)
    (o : option error) :
  ctx 0%nat = None -> ctx 1%nat = None -> ctx 2%nat = None -> ctx 3%nat = None ->
  Validate (validator g) login password (ext w) = (true, x0) ->
  CreateAccount (app g) account x0 = (Ok acc, x1) ->
  CredentialsByID (database g) (GetID acc) x1 = (Err e1, x2) ->
  errors_Is e1 ErrCredentialsNotFound = true ->
  CredentialsByLogin (database g) login x2 = (Ok c, x3) ->
  DeleteAccount (app g) (GetID acc) x3 = (o, x4) ->
  signup g ctx account login password w =
    (Some ErrCredentialsConflict,
     mkWorld (sessions w) x4
             (trace w ++ [CallValidate login password; CallCreateAccount account;
                          CallCredentialsByID (GetID acc);
                          CallCredentialsByLogin login;
                          CallDeleteAccount (GetID acc)])
             (pending w)).
Proof.
  intros H0 H1 H2 H3 Hv Hc Hid Hnf Hlogin Hdel.
  unfold signup. rewrite H0.
  rewrite (logged_run _ _ w true x0) by done. simpl. rewrite H1.
  erewrite logged_run by (simpl; exact Hc). simpl.
  unfold signup_steps. rewrite H2.
  erewrite logged_run by (simpl; exact Hid). simpl. rewrite Hnf. simpl.
  rewrite H3.
  erewrite logged_run by (simpl; exact Hlogin). simpl.
  unfold signup_rollback.
  erewrite logged_run by (simpl; exact Hdel). simpl.
  by rewrite <- !app_assoc.
Qed.

(** ** One live session per login *)

Lemma lookup_others (L : string) (m : gmap string Session) (k : string) (s : Session) :
  others L m !! k = Some s ↔ m !! k = Some s ∧ cred_login (sess_credentials s) ≠ L.
Proof.
  unfold others. rewrite lookup_kept.
  split; intros [? H]; (split; [done|]).
  - by apply bool_decide_eq_true in H.
  - by apply bool_decide_eq_true.
Qed.

Lemma others_gone (L : string) (m : gmap string Session) (k : string) (s : Session) :
  m !! k = Some s -> cred_login (sess_credentials s) = L -> others L m !! k = None.
Proof.
  intros Hk HL. apply eq_None_not_Some. intros [s' [Hs' Hne]%lookup_others].
  congruence.
Qed.

(** C3. After [signin] for login [L] has returned a session [s], the store
    is the old store without the sessions of [L], plus [s] under its fresh
    id: any session of [L] left in the store is [s] itself, every session
    of [L] that was there before is gone (unless [s] took over its key), the
    sessions of other logins are untouched, and at most one session of [L]
    is stored. *)
Theorem signin_one_session_per_login {X : Type} (g : Goard X) ctx now uuid
    (L p : string) (w : World X) (s : Session) (w' : World X) :
  store_wf (sessions w) ->
  signin g ctx now uuid L p w = (Ok s, w') ->
  sessions w' !! sess_id s = Some s ∧
  (forall k s', sessions w' !! k = Some s' ->
     cred_login (sess_credentials s') = L -> k = sess_id s ∧ s' = s) ∧
  (forall k s0, sessions w !! k = Some s0 ->
     cred_login (sess_credentials s0) = L ->
     k ≠ sess_id s -> sessions w' !! k = None) ∧
  (forall k s0, sessions w !! k = Some s0 ->
     cred_login (sess_credentials s0) ≠ L ->
     k ≠ sess_id s -> sessions w' !! k = Some s0) ∧
  (size (sessions_of L (sessions w')) ≤ 1)%nat.
Proof.
  intros Hwf Hrun.
  destruct (signin_cases g ctx now uuid L p w (Ok s) w' Hwf Hrun)
    as [_ [(? & _)|[(_ & _ & ? & _ & ? & _)|[(_ & _ & _ & ? & ? & _)|Hok]]]];
    try discriminate.
  destruct Hok as (_ & _ & _ & s1 & [= <-] & Hst & Hid & _).
  rewrite Hid, Hst.
  assert (Honly : forall k s', <[uuid := s]> (others L (sessions w)) !! k = Some s' ->
            cred_login (sess_credentials s') = L -> k = uuid ∧ s' = s).
  { intros k s' Hk HL. apply lookup_insert_Some in Hk as [[<- <-]|[_ Hk]]; [done|].
    apply lookup_others in Hk as [_ Hne]. done. }
  split; [apply lookup_insert_eq|]. split; [exact Honly|].
  split; [|split].
  - intros k s0 Hk HL Hne. rewrite lookup_insert_ne by done.
    by eapply others_gone.
  - intros k s0 Hk HL Hne. rewrite lookup_insert_ne by done.
    by apply lookup_others.
  - unfold sessions_of.
    transitivity (size ({[ uuid := s ]} : gmap string Session));
      [|by rewrite map_size_singleton].
    apply map_subseteq_size, map_subseteq_spec. intros k s'.
    intros [Hk HL]%map_lookup_filter_Some. simpl in HL.
    destruct (Honly k s' Hk HL) as [-> ->]. apply lookup_singleton_eq.
Qed.

(** alice signs in again while her earlier session and a session of the
    admin-flagged user are stored. *)
Lemma signin_one_session_per_login_witness :
  let w := Demo.world (<[ "s-root" := Demo.rootSession ]>
                         {[ "s-alice" := Demo.aliceSession ]}) in
  let r := signin (Demo.goard DEFAULT_TTL) Background (3 * Hour) "9d2e"
                  "alice" "secret" w in
  ∃ s, r.1 = Ok s ∧
       sessions r.2 !! "9d2e" = Some s ∧
       sessions r.2 !! "s-alice" = None ∧
       sessions r.2 !! "s-root" = Some Demo.rootSession ∧
       (size (sessions_of "alice" (sessions r.2)) ≤ 1)%nat.
Proof.
  intros w r.
  set (s := mkSession "9d2e" (mkAccount 42) Demo.alice
                      (Add (3 * Hour) DEFAULT_TTL) (3 * Hour) false).
  assert (Hwf : store_wf (sessions w)).
  { apply (store_wf_insert _ Demo.rootSession).
    apply (store_wf_singleton Demo.aliceSession). }
  assert (Hrun : signin (Demo.goard DEFAULT_TTL) Background (3 * Hour) "9d2e"
                   "alice" "secret" w = (Ok s, r.2))
    by (vm_compute; reflexivity).
  destruct (signin_one_session_per_login _ _ _ _ _ _ _ _ _ Hwf Hrun)
    as (Hnew & _ & Hgone & Hkeep & Hsize).
  exists s. split; [by vm_compute|]. split; [exact Hnew|].
  split; [|split; [|exact Hsize]].
  - apply (Hgone "s-alice" Demo.aliceSession); [|done|discriminate].
    subst w; simpl. rewrite lookup_insert_ne by discriminate.
    apply lookup_singleton_eq.
  - apply (Hkeep "s-root" Demo.rootSession); [|discriminate..].
    subst w; simpl. apply lookup_insert_eq.
Defined.

(** C10. A [signin] for a non-empty login [L] and password that gets past
    its first cancellation check and then fails, for whatever reason,
    leaves the store without any of the sessions of [L] it held before:
    the store is exactly the old one minus the sessions of [L], the
    sessions of the other logins being untouched. *)
Theorem signin_failure_revokes {X : Type} (g : Goard X) ctx now uuid
    (L p : string) (w : World X) (e : error) (w' : World X) :
  L ≠ "" -> p ≠ "" ->
  ctx 0%nat = None ->
  store_wf (sessions w) ->
  signin g ctx now uuid L p w = (Err e, w') ->
  sessions w' = others L (sessions w) ∧
  (forall k s, sessions w !! k = Some s ->
     cred_login (sess_credentials s) = L -> sessions w' !! k = None) ∧
  (forall k s, sessions w' !! k = Some s -> cred_login (sess_credentials s) ≠ L) ∧
  (forall k s, sessions w !! k = Some s ->
     cred_login (sess_credentials s) ≠ L -> sessions w' !! k = Some s).
Proof.
  intros HL Hp Hc Hwf Hrun.
  destruct (signin_cases g ctx now uuid L p w (Err e) w' Hwf Hrun)
    as [_ [(_ & [?|?] & _)|[(_ & _ & ? & ? & _)|[Herr|(_ & _ & _ & ? & ? & _)]]]];
    try done; try congruence.
  destruct Herr as (_ & _ & _ & e' & _ & Hst). rewrite Hst.
  split; [done|]. split; [|split].
  - intros k s Hk Hs. by eapply others_gone.
  - intros k s [_ Hne]%lookup_others. done.
  - intros k s Hk Hne. by apply lookup_others.
Qed.

(** A wrong password for alice, and a login the repository does not know,
    each tried while a session of that login is stored. *)
Lemma signin_failure_revokes_witness :
  let w := Demo.world {[ "s-alice" := Demo.aliceSession ]} in
  let r := signin (Demo.goard DEFAULT_TTL) Background (3 * Hour) "9d2e"
                  "alice" "guess" w in
  r.1 = Err ErrCredentialsMismatch ∧ sessions r.2 !! "s-alice" = None.
Proof.
  intros w r. split; [by vm_compute|].
  assert (Hrun : signin (Demo.goard DEFAULT_TTL) Background (3 * Hour) "9d2e"
                   "alice" "guess" w = (Err ErrCredentialsMismatch, r.2))
    by (vm_compute; reflexivity).
  destruct (signin_failure_revokes (Demo.goard DEFAULT_TTL) Background (3 * Hour)
              "9d2e" "alice" "guess" w ErrCredentialsMismatch r.2)
    as (_ & Hgone & _).
  - discriminate.
  - discriminate.
  - reflexivity.
  - apply (store_wf_singleton Demo.aliceSession).
  - exact Hrun.
  - apply (Hgone "s-alice" Demo.aliceSession);
      [apply lookup_singleton_eq | reflexivity].
Defined.

(** ** How the operations change the store *)

(** Case analysis of a run through the logged calls and the branches that
    follow them. *)
Ltac open_logged :=
  repeat match goal with
  | |- context [logged ?ev ?f ?w] =>
      let H := fresh "Hl" in
      destruct (logged ev f w) as [? ?] eqn:H;
      apply logged_inv in H as (? & _ & ->); simpl
  | |- context [match ?x with _ => _ end] =>
      lazymatch x with
      | context [match _ with _ => _ end] => fail
      | _ => destruct x; simpl
      end
  end.

Section StoreChanges.
Context {X : Type} (g : Goard X).
Implicit Types (w : World X).

Lemma signup_sessions ctx account login password w :
  sessions (signup g ctx account login password w).2 = sessions w.
Proof.
  unfold signup, signup_steps, signup_rollback.
  open_logged; done.
Qed.

Lemma signin_change ctx now uuid L p w :
  store_wf (sessions w) ->
  store_change g (sessions w) (sessions (signin g ctx now uuid L p w).2).
Proof.
  intros Hwf. destruct (signin g ctx now uuid L p w) as [r w'] eqn:H. simpl.
  apply signin_cases in H as [_ [(_ & _ & ->)|[(_ & _ & ? & _ & _ & ->)|
    [(_ & _ & _ & ? & _ & ->)|(_ & _ & _ & s & _ & -> & <- & Hi & He & Ha)]]]];
    try done; try constructor.
  unfold created_by_signin. rewrite Hi. by split.
Qed.

Lemma signout_change ctx sessionID w :
  store_change g (sessions w) (sessions (signout ctx sessionID w).2).
Proof.
  unfold signout, bind, check, RevokeSession, ret, fail.
  case_bool_decide; [constructor|].
  destruct (ctx 0%nat); simpl; constructor.
Qed.

Lemma session_sessions now sessionID w :
  sessions (session now sessionID w).2 = sessions w.
Proof.
  unfold session, InvokeSession. case_bool_decide; [done|].
  destruct (sessions w !! sessionID) as [s|]; [|done].
  by destruct (Unix (sess_exp s) >? Unix now).
Qed.

Lemma cleanup_change t w :
  store_wf (sessions w) ->
  store_change g (sessions w) (sessions (cleanup_tick t w).2).
Proof.
  intros Hwf. unfold cleanup_tick. case_bool_decide; [constructor|].
  rewrite ForEach_revokeExpired by done. constructor.
Qed.

Lemma setRole_change id account role w :
  store_wf (sessions w) ->
  store_change g (sessions w) (sessions (setRole g id account role w).2).
Proof.
  intros Hwf. destruct (setRole g id account role w) as [r w'] eqn:H. simpl.
  unfold setRole in H.
  inv_bind H Hi; unfold InvokeSession in Hi;
    destruct (sessions w !! id) as [actor|]; try done.
  2:{ injection Hi as _ <-. constructor. }
  injection Hi as <- <-.
  destruct (negb (sess_admin actor)); [injection H as _ <-; constructor|].
  inv_bind H Hc; apply logged_inv in Hc as (? & _ & ->); [|constructor].
  destruct (hasRole _ _); [injection H as _ <-; constructor|].
  inv_bind H Hc; apply calle_inv in Hc as (o & ? & _ & -> & Hr); [|constructor].
  rewrite ForEach_replaceCredentials in H by done. injection H as _ <-.
  simpl. constructor.
Qed.

Lemma unsetRole_change id account role w :
  store_wf (sessions w) ->
  store_change g (sessions w) (sessions (unsetRole g id account role w).2).
Proof.
  intros Hwf. destruct (unsetRole g id account role w) as [r w'] eqn:H. simpl.
  unfold unsetRole in H.
  inv_bind H Hi; unfold InvokeSession in Hi;
    destruct (sessions w !! id) as [actor|]; try done.
  2:{ injection Hi as _ <-. constructor. }
  injection Hi as <- <-.
  destruct (negb (sess_admin actor)); [injection H as _ <-; constructor|].
  inv_bind H Hc; apply logged_inv in Hc as (? & _ & ->); [|constructor].
  inv_bind H Hc; apply calle_inv in Hc as (o & ? & _ & -> & Hr); [|constructor].
  rewrite ForEach_replaceCredentials in H by done. injection H as _ <-.
  simpl. constructor.
Qed.

Lemma step_store_change w w' :
  step g w w' -> store_wf (sessions w) -> store_change g (sessions w) (sessions w').
Proof.
  intros Hstep Hwf. destruct Hstep.
  - by apply signin_change.
  - rewrite signup_sessions. constructor.
  - apply signout_change.
  - rewrite session_sessions. constructor.
  - destruct t. simpl. constructor.
  - by apply cleanup_change.
  - by apply setRole_change.
  - by apply unsetRole_change.
Qed.

Lemma store_change_wf (m m' : gmap string Session) :
  store_change g m m' -> store_wf m -> store_wf m'.
Proof.
  intros Hch Hwf. destruct Hch.
  - done.
  - by apply store_wf_kept.
  - by apply store_wf_delete.
  - by apply store_wf_insert, store_wf_kept.
  - by apply store_wf_refreshed.
Qed.

(** A property of single sessions that [signin] establishes and the
    propagation scan keeps holds of the whole store for ever. *)
Lemma store_change_all (P : Session -> Prop) (m m' : gmap string Session) :
  (forall s, created_by_signin g s -> P s) ->
  (forall c s, P s -> P (refreshed c s)) ->
  store_change g m m' ->
  (forall k s, m !! k = Some s -> P s) ->
  forall k s, m' !! k = Some s -> P s.
Proof.
  intros Hnew Hrefresh Hch Hall k s Hk. destruct Hch.
  - by eapply Hall.
  - apply lookup_kept in Hk as [Hk _]. by eapply Hall.
  - apply lookup_delete_Some in Hk as [_ Hk]. by eapply Hall.
  - apply lookup_insert_Some in Hk as [[_ <-]|[_ Hk]]; [by apply Hnew|].
    apply lookup_kept in Hk as [Hk _]. by eapply Hall.
  - rewrite lookup_fmap in Hk. destruct (m !! k) as [s0|] eqn:Hk0; [|done].
    injection Hk as <-. apply Hrefresh. by eapply Hall.
Qed.

Lemma refreshed_expiry (c : Credentials) (s : Session) :
  sess_exp (refreshed c s) = sess_exp s ∧ sess_iss (refreshed c s) = sess_iss s ∧
  sess_admin (refreshed c s) = sess_admin s ∧ sess_id (refreshed c s) = sess_id s ∧
  sess_account (refreshed c s) = sess_account s.
Proof. unfold refreshed. by case_bool_decide. Qed.

Lemma step_invariant w w' :
  step g w w' ->
  store_wf (sessions w) -> expiry_ok (ttl g) (sessions w) ->
  store_wf (sessions w') ∧ expiry_ok (ttl g) (sessions w').
Proof.
  intros Hstep Hwf Hexp.
  pose proof (step_store_change w w' Hstep Hwf) as Hch.
  split; [by eapply store_change_wf|].
  unfold expiry_ok.
  apply (store_change_all (fun s => sess_exp s = Add (sess_iss s) (ttl g))
           (sessions w) (sessions w')); try done.
  - by intros s [? _].
  - intros c s Hs. destruct (refreshed_expiry c s) as (-> & -> & _). done.
Qed.

Lemma reachable_invariant (x0 : X) w :
  reachable g x0 w ->
  store_wf (sessions w) ∧ expiry_ok (ttl g) (sessions w).
Proof.
  unfold reachable. revert w. apply rtc_ind_r.
  - split; intros k s; simpl; by rewrite lookup_empty.
  - intros w1 w2 _ Hstep [IH1 IH2]. by eapply step_invariant.
Qed.

(** No operation of the core stores a session with the [admin] flag. *)
Lemma reachable_no_admin (x0 : X) w :
  reachable g x0 w ->
  forall k s, sessions w !! k = Some s -> sess_admin s = false.
Proof.
  unfold reachable. revert w.
  apply (rtc_ind_r (fun w => forall k s,
           sessions w !! k = Some s -> sess_admin s = false)).
  - intros k s; simpl; by rewrite lookup_empty.
  - intros w1 w2 Hr1 Hstep IH.
    apply (store_change_all (fun s => sess_admin s = false)
             (sessions w1) (sessions w2)); try done.
    + by intros s [_ ?].
    + intros c s Hs. destruct (refreshed_expiry c s) as (_ & _ & -> & _). done.
    + apply step_store_change; [done|]. by eapply reachable_invariant.
Qed.
End StoreChanges.

(** ** Expiry of created sessions *)

Lemma New_ttl {X : Type} (bcrypt : Z -> Hasher X) (config : Config X) (g : Goard X) :
  New bcrypt config = Some g ->
  ttl g = (if (Milliseconds (cfg_TTL config) =? 0)%Z then DEFAULT_TTL
           else cfg_TTL config).
Proof.
  unfold New. destruct (cfg_Database config); [|done].
  destruct (cfg_Container config); [|done]. by intros [= <-].
Qed.

Lemma New_ttl_positive {X : Type} (bcrypt : Z -> Hasher X) (config : Config X)
    (g : Goard X) :
  New bcrypt config = Some g -> 0 ≤ cfg_TTL config -> 0 < ttl g.
Proof.
  intros HN Hpos. rewrite (New_ttl _ _ _ HN).
  destruct (Z.eqb_spec (Milliseconds (cfg_TTL config)) 0) as [_|Hne].
  - by vm_compute.
  - destruct (decide (cfg_TTL config = 0)) as [Hz|Hz]; [|lia].
    rewrite Hz in Hne. by vm_compute in Hne.
Qed.

Lemma New_ttl_cases {X : Type} (bcrypt : Z -> Hasher X) (config : Config X)
    (g : Goard X) :
  New bcrypt config = Some g ->
  (- Millisecond < cfg_TTL config < Millisecond -> ttl g = DEFAULT_TTL) ∧
  (Millisecond ≤ cfg_TTL config -> ttl g = cfg_TTL config) ∧
  (cfg_TTL config ≤ - Millisecond -> ttl g = cfg_TTL config).
Proof.
  intros HN. rewrite (New_ttl _ _ _ HN). unfold Milliseconds, Millisecond.
  destruct (Z.eqb_spec (cfg_TTL config `quot` 1000000) 0) as [Hq|Hq].
  - apply Z.quot_small_iff in Hq; [|lia]. repeat split; intros; lia.
  - repeat split; try done.
    intros Hs. exfalso. apply Hq. apply Z.quot_small_iff; lia.
Qed.

(** C5 (as amended). Every session returned by [signin], on the admin path
    and on the credential path alike, has [exp = iss + ttl], so [exp > iss]
    exactly when the configured ttl is positive.  [New] replaces a [TTL] of
    magnitude below one millisecond (zero [Milliseconds()]) by the default
    of eight hours and keeps every other [TTL]: the ttl is positive for
    every [TTL] above minus one millisecond, and a [TTL] of minus one
    millisecond or less is kept, negative, so that the sessions issued
    under it have [exp < iss].  Every operation of the core (including the
    role propagation) keeps [exp = iss + ttl] for every stored session, so
    it holds in every reachable store, with [exp > iss] exactly when the ttl
    is positive. *)
Theorem session_expiry_relation {X : Type} (g : Goard X) :
  (forall ctx now uuid L p (w : World X) s w',
     store_wf (sessions w) ->
     signin g ctx now uuid L p w = (Ok s, w') ->
     sess_iss s = now ∧ sess_exp s = Add (sess_iss s) (ttl g) ∧
     (sess_iss s < sess_exp s ↔ 0 < ttl g) ∧
     (sess_exp s < sess_iss s ↔ ttl g < 0)) ∧
  (forall (bcrypt : Z -> Hasher X) (config : Config X),
     New bcrypt config = Some g ->
     (- Millisecond < cfg_TTL config < Millisecond -> ttl g = DEFAULT_TTL) ∧
     (Millisecond ≤ cfg_TTL config -> ttl g = cfg_TTL config) ∧
     (cfg_TTL config ≤ - Millisecond -> ttl g = cfg_TTL config ∧ ttl g < 0) ∧
     (0 < ttl g ↔ - Millisecond < cfg_TTL config)) ∧
  (forall w w' : World X,
     step g w w' ->
     store_wf (sessions w) -> expiry_ok (ttl g) (sessions w) ->
     store_wf (sessions w') ∧ expiry_ok (ttl g) (sessions w')) ∧
  (forall (x0 : X) (w : World X),
     reachable g x0 w ->
     forall k s, sessions w !! k = Some s ->
       sess_exp s = Add (sess_iss s) (ttl g) ∧
       (sess_iss s < sess_exp s ↔ 0 < ttl g)).
Proof.
  split; [|split; [|split]].
  - intros ctx now uuid L p w s w' Hwf Hrun.
    destruct (signin_cases g ctx now uuid L p w (Ok s) w' Hwf Hrun)
      as [_ [(? & _)|[(_ & _ & ? & _ & ? & _)|[(_ & _ & _ & ? & ? & _)|Hok]]]];
      try discriminate.
    destruct Hok as (_ & _ & _ & s1 & [= <-] & _ & _ & Hi & He & _).
    rewrite Hi, He. unfold Add. repeat split; lia.
  - intros bcrypt config HN.
    destruct (New_ttl_cases bcrypt config g HN) as (Hsmall & Hpos & Hneg).
    assert (Hdef : 0 < DEFAULT_TTL) by (by vm_compute).
    assert (Hms : Millisecond = 1000000) by done.
    split; [exact Hsmall|]. split; [exact Hpos|]. split.
    + intros Hle. rewrite (Hneg Hle). split; [done|lia].
    + destruct (Z.le_gt_cases (cfg_TTL config) (- Millisecond)) as [Hle|Hgt].
      * rewrite (Hneg Hle). lia.
      * destruct (Z.lt_ge_cases (cfg_TTL config) Millisecond) as [Hlt|Hge].
        -- rewrite Hsmall by lia. lia.
        -- rewrite (Hpos Hge). lia.
  - apply step_invariant.
  - intros x0 w Hr k s Hk.
    destruct (reachable_invariant g x0 w Hr) as [_ Hexp].
    rewrite (Hexp k s Hk). unfold Add. split; [done|lia].
Qed.

(** alice signs in on a fresh store of a service configured with a ttl of
    eight hours; the resulting world is reachable. *)
Lemma session_expiry_relation_witness :
  let g := Demo.goard DEFAULT_TTL in
  let r := signin g Background (3 * Hour) "9d2e" "alice" "secret"
                  (NewWorld Demo.ext0) in
  ∃ s, r.1 = Ok s ∧ sessions r.2 !! "9d2e" = Some s ∧
       sess_iss s = 3 * Hour ∧ sess_exp s = 11 * Hour ∧ sess_iss s < sess_exp s.
Proof.
  intros g r.
  destruct (session_expiry_relation g) as (Hnew & _ & _ & Hreach).
  set (s := mkSession "9d2e" (mkAccount 42) Demo.alice (11 * Hour) (3 * Hour) false).
  assert (Hrun : signin g Background (3 * Hour) "9d2e" "alice" "secret"
                   (NewWorld Demo.ext0) = (Ok s, r.2))
    by (vm_compute; reflexivity).
  assert (Hk : sessions r.2 !! "9d2e" = Some s) by (vm_compute; reflexivity).
  exists s. split; [vm_compute; reflexivity|]. split; [exact Hk|].
  destruct (Hnew Background (3 * Hour) "9d2e" "alice" "secret"
              (NewWorld Demo.ext0) s r.2 store_wf_empty Hrun) as (Hi & _ & _).
  split; [exact Hi|].
  destruct (Hreach Demo.ext0 r.2
              (rtc_once _ _ (step_signin g Background (3 * Hour) "9d2e"
                               "alice" "secret" (NewWorld Demo.ext0)))
              "9d2e" s Hk) as [He Hlt].
  split; [vm_compute; reflexivity|]. apply Hlt. vm_compute. reflexivity.
Defined.

(** C5, the property as worded in the specification fails: [New] keeps a
    [TTL] of minus one hour, and the session issued under it expires before
    it was issued. *)
Lemma negative_ttl_expires_before_issue :
  let config := mkConfig Demo.Ext Demo.theApp Demo.root
                  (Some (NewCookiesContainer "sid")) (Some Demo.theDatabase)
                  None (Some Demo.theHasher) (- Hour) 0 in
  ∃ g s w',
    New (fun _ => Demo.theHasher) config = Some g ∧
    ttl g = - Hour ∧
    signin g Background (3 * Hour) "6f1c" "root" "toor" (NewWorld Demo.ext0)
      = (Ok s, w') ∧
    sess_iss s = 3 * Hour ∧ sess_exp s = 2 * Hour ∧ sess_exp s < sess_iss s.
Proof.
  intros config.
  eexists _, _, _. split; [reflexivity|]. split; [reflexivity|].
  split; [vm_compute; reflexivity|].
  split; [reflexivity|]. split; reflexivity.
Qed.

(** ** Role mutation *)

Lemma hasRole_spec (roles : list string) (role : string) :
  hasRole roles role = true ↔ role ∈ roles.
Proof.
  induction roles as [|r roles IH]; simpl.
  - rewrite elem_of_nil. split; [discriminate | tauto].
  - rewrite elem_of_cons. case_bool_decide as Hr.
    + split; [intros _; by left | done].
    + rewrite IH. split; [by right | intros [?|?]; [congruence | done]].
Qed.

Lemma dropRole_acc (roles acc : list string) (role : string) :
  foldl (fun acc r => if bool_decide (r ≠ role) then acc ++ [r] else acc) acc roles
  = acc ++ filter (fun r => r ≠ role) roles.
Proof.
  revert acc; induction roles as [|r roles IH]; intros acc; simpl.
  - by rewrite app_nil_r.
  - rewrite IH. case_bool_decide as Hr.
    + rewrite filter_cons_True by done. by rewrite <- app_assoc.
    + rewrite filter_cons_False; [done|]. intros Hne. by apply Hne.
Qed.

Lemma dropRole_filter (roles : list string) (role : string) :
  dropRole roles role = filter (fun r => r ≠ role) roles.
Proof. unfold dropRole. by rewrite dropRole_acc. Qed.

Lemma dropRole_absent (roles : list string) (role : string) :
  role ∉ roles -> dropRole roles role = roles.
Proof.
  rewrite dropRole_filter. induction roles as [|r roles IH]; intros Hn; [done|].
  apply not_elem_of_cons in Hn as [Hne Hn].
  rewrite filter_cons_True by done. by rewrite IH.
Qed.

Lemma with_roles_same (c : Credentials) : with_roles c (cred_roles c) = c.
Proof. by destruct c. Qed.

Section RoleRuns.
Context {X : Type} (g : Goard X).
Implicit Types (w : World X).

Lemma InvokeSession_run (id : string) w (s : Session) :
  sessions w !! id = Some s -> InvokeSession id w = (Ok s, w).
Proof. unfold InvokeSession. by intros ->. Qed.

Lemma setRole_conflict_run id account role w actor c (x1 : X) :
  sessions w !! id = Some actor -> sess_admin actor = true ->
  CredentialsByID (database g) account (ext w) = (Ok c, x1) ->
  role ∈ cred_roles c ->
  setRole g id account role w =
    (Err ErrRoleConflict,
     mkWorld (sessions w) x1 (trace w ++ [CallCredentialsByID account]) (pending w)).
Proof.
  intros Hid Hadm Hdb Hrole. unfold setRole, bind.
  rewrite (InvokeSession_run id w actor Hid), Hadm. simpl.
  unfold call. erewrite logged_run by exact Hdb. simpl.
  apply hasRole_spec in Hrole. by rewrite Hrole.
Qed.

Lemma setRole_run id account role w actor c (x1 x2 : X) :
  store_wf (sessions w) ->
  sessions w !! id = Some actor -> sess_admin actor = true ->
  CredentialsByID (database g) account (ext w) = (Ok c, x1) ->
  role ∉ cred_roles c ->
  UpdateCredentials (database g) (with_roles c (cred_roles c ++ [role])) x1
    = (None, x2) ->
  setRole g id account role w =
    (Ok tt,
     mkWorld (refreshed (with_roles c (cred_roles c ++ [role])) <$> sessions w) x2
             (trace w ++ [CallCredentialsByID account;
                          CallUpdateCredentials
                            (with_roles c (cred_roles c ++ [role]))])
             (pending w)).
Proof.
  intros Hwf Hid Hadm Hdb Hrole Hup. unfold setRole, bind.
  rewrite (InvokeSession_run id w actor Hid), Hadm. simpl.
  unfold call. erewrite logged_run by exact Hdb. simpl.
  destruct (hasRole (cred_roles c) role) eqn:Hh;
    [by apply hasRole_spec in Hh|].
  unfold calle. erewrite logged_run by (simpl; exact Hup). simpl.
  rewrite ForEach_replaceCredentials by done. simpl.
  by rewrite <- app_assoc.
Qed.

Lemma unsetRole_run id account role w actor c (x1 x2 : X) :
  store_wf (sessions w) ->
  sessions w !! id = Some actor -> sess_admin actor = true ->
  CredentialsByID (database g) account (ext w) = (Ok c, x1) ->
  UpdateCredentials (database g) (with_roles c (dropRole (cred_roles c) role)) x1
    = (None, x2) ->
  unsetRole g id account role w =
    (Ok tt,
     mkWorld (refreshed (with_roles c (dropRole (cred_roles c) role)) <$> sessions w) x2
             (trace w ++ [CallCredentialsByID account;
                          CallUpdateCredentials
                            (with_roles c (dropRole (cred_roles c) role))])
             (pending w)).
Proof.
  intros Hwf Hid Hadm Hdb Hup. unfold unsetRole, bind.
  rewrite (InvokeSession_run id w actor Hid), Hadm. simpl.
  unfold call. erewrite logged_run by exact Hdb. simpl.
  unfold calle. erewrite logged_run by (simpl; exact Hup). simpl.
  rewrite ForEach_replaceCredentials by done. simpl.
  by rewrite <- app_assoc.
Qed.
End RoleRuns.

(** The body of [setRole] and [unsetRole] past the admin gate, for a store
    that holds an acting session with the [admin] flag (no operation of the
    core creates one, see [reachable_no_admin]) and a target
    record [c] found by the repository: granting a role that [c] already
    holds fails with [ErrRoleConflict], the only collaborator call being the
    lookup (no [UpdateCredentials]), the store being untouched; revoking a
    role that [c] does not hold succeeds once the repository accepts the
    update, and what is written back is [c] itself, so every session of
    that account carries the role set [c] had. *)
Lemma role_conflict_past_gate {X : Type} (g : Goard X)
    (id : string) (account : Z) (role : string) (w : World X)
    (actor : Session) (c : Credentials) (x1 : X) :
  sessions w !! id = Some actor -> sess_admin actor = true ->
  CredentialsByID (database g) account (ext w) = (Ok c, x1) ->
  (role ∈ cred_roles c ->
     setRole g id account role w =
       (Err ErrRoleConflict,
        mkWorld (sessions w) x1 (trace w ++ [CallCredentialsByID account])
                (pending w))) ∧
  (role ∉ cred_roles c -> store_wf (sessions w) ->
     forall x2, UpdateCredentials (database g) c x1 = (None, x2) ->
     ∃ w', unsetRole g id account role w = (Ok tt, w') ∧
           ext w' = x2 ∧
           trace w' = trace w ++ [CallCredentialsByID account; CallUpdateCredentials c] ∧
           (forall k s, sessions w' !! k = Some s ->
              cred_id (sess_credentials s) = cred_id c -> Roles s = cred_roles c) ∧
           (forall k s, sessions w' !! k = Some s ->
              cred_id (sess_credentials s) ≠ cred_id c -> sessions w !! k = Some s)).
Proof.
  intros Hid Hadm Hdb. split.
  - intros Hrole. by eapply setRole_conflict_run.
  - intros Hrole Hwf x2 Hup.
    assert (Hc : with_roles c (dropRole (cred_roles c) role) = c)
      by (rewrite dropRole_absent by done; apply with_roles_same).
    eexists. split.
    { eapply unsetRole_run; try done. rewrite Hc. exact Hup. }
    simpl. rewrite Hc. split; [done|]. split; [done|].
    assert (Hlook : forall k s, (refreshed c <$> sessions w) !! k = Some s ->
              ∃ s0, sessions w !! k = Some s0 ∧ s = refreshed c s0).
    { intros k s. rewrite lookup_fmap.
      destruct (sessions w !! k) as [s0|]; [|done]. intros [= <-]. by exists s0. }
    split.
    + intros k s (s0 & _ & ->)%Hlook. unfold Roles, refreshed.
      case_bool_decide as Hs0; simpl; [done|]. intros; congruence.
    + intros k s (s0 & Hk & ->)%Hlook. unfold refreshed.
      case_bool_decide as Hs0; simpl; [done | by intros].
Qed.

(** On a store built by hand with an admin-flagged session: that session
    grants alice the role "reader" she already holds, then revokes "editor",
    which she does not hold. *)
Lemma role_conflict_past_gate_example :
  let w := Demo.world (<[ "s-root" := Demo.rootSession ]>
                         {[ "s-alice" := Demo.aliceSession ]}) in
  setRole (Demo.goard DEFAULT_TTL) "s-root" 42 "reader" w =
    (Err ErrRoleConflict, mkWorld (sessions w) Demo.ext0 [CallCredentialsByID 42] []) ∧
  ∃ w', unsetRole (Demo.goard DEFAULT_TTL) "s-root" 42 "editor" w = (Ok tt, w') ∧
        ext w' = Demo.ext0 ∧
        trace w' = [CallCredentialsByID 42; CallUpdateCredentials Demo.alice].
Proof.
  intros w.
  destruct (role_conflict_past_gate (Demo.goard DEFAULT_TTL) "s-root" 42
              "reader" w Demo.rootSession Demo.alice Demo.ext0) as [Hgrant _];
    [apply lookup_insert_eq | reflexivity | reflexivity |].
  destruct (role_conflict_past_gate (Demo.goard DEFAULT_TTL) "s-root" 42
              "editor" w Demo.rootSession Demo.alice Demo.ext0) as [_ Hrevoke];
    [apply lookup_insert_eq | reflexivity | reflexivity |].
  split.
  - apply Hgrant. simpl. left.
  - destruct (Hrevoke) with (x2 := Demo.ext0) as (w' & Hrun & Hext & Htr & _).
    + simpl. rewrite elem_of_cons, elem_of_nil. intros [?|[]]. discriminate.
    + apply (store_wf_insert _ Demo.rootSession).
      apply (store_wf_singleton Demo.aliceSession).
    + reflexivity.
    + exists w'. split; [exact Hrun|]. split; [exact Hext | exact Htr].
Defined.

Lemma refreshed_propagated (c' : Credentials) (m : gmap string Session) :
  propagated (cred_id c') c' m (refreshed c' <$> m).
Proof.
  unfold propagated. split; [|split].
  - intros k s Hk Hid. exists (refreshed c' s). rewrite lookup_fmap, Hk.
    split; [done|]. unfold refreshed. by rewrite bool_decide_eq_true_2.
  - intros k s Hk Hid. rewrite lookup_fmap, Hk. simpl. f_equal.
    unfold refreshed. by rewrite bool_decide_eq_false_2.
  - intros k Hk. by rewrite lookup_fmap, Hk.
Qed.

(** After the propagation, validating a session of the account shows the
    new role set. *)
Lemma propagated_session {X : Type} (a : Z) (c' : Credentials) (w w' : World X)
    (k : string) (s : Session) (now : Time) :
  propagated a c' (sessions w) (sessions w') ->
  sessions w !! k = Some s -> cred_id (sess_credentials s) = a ->
  Unix now < Unix (sess_exp s) ->
  ∃ s', session now k w' = (Ok s', w') ∧ Roles s' = cred_roles c'.
Proof.
  intros (Hp & _) Hk Hid Hlive.
  destruct (Hp k s Hk Hid) as (s' & Hk' & _ & _ & _ & Hexp & _ & Hc).
  exists s'. split; [|unfold Roles; by rewrite Hc].
  unfold session, InvokeSession.
  rewrite bool_decide_eq_false_2 by (by eapply Count_lookup).
  rewrite Hk', Hexp. destruct (Z.gtb_spec (Unix (sess_exp s)) (Unix now)); [done|lia].
Qed.

(** The propagation past the admin gate, for a store that holds an acting
    session with the [admin] flag, a target record
    [c] the repository returns for account [a], and an update the
    repository accepts: after [setRole] (the role not yet held) and after
    [unsetRole], every session whose credentials have id [a] is replaced
    under its key by one with the same id, account, issue and expiry times
    and admin flag and with the updated credentials, every other session
    is unchanged, and validating a still-valid session of [a] returns the
    new role set. *)
Lemma role_change_past_gate {X : Type} (g : Goard X)
    (id : string) (a : Z) (role : string) (w : World X)
    (actor : Session) (c : Credentials) (x1 x2 : X) :
  store_wf (sessions w) ->
  sessions w !! id = Some actor -> sess_admin actor = true ->
  CredentialsByID (database g) a (ext w) = (Ok c, x1) ->
  cred_id c = a ->
  (role ∉ cred_roles c ->
   UpdateCredentials (database g) (with_roles c (cred_roles c ++ [role])) x1
     = (None, x2) ->
   ∃ w', setRole g id a role w = (Ok tt, w') ∧
         propagated a (with_roles c (cred_roles c ++ [role])) (sessions w) (sessions w') ∧
         (forall k s now, sessions w !! k = Some s ->
            cred_id (sess_credentials s) = a -> Unix now < Unix (sess_exp s) ->
            ∃ s', session now k w' = (Ok s', w') ∧ Roles s' = cred_roles c ++ [role])) ∧
  (UpdateCredentials (database g) (with_roles c (dropRole (cred_roles c) role)) x1
     = (None, x2) ->
   ∃ w', unsetRole g id a role w = (Ok tt, w') ∧
         propagated a (with_roles c (dropRole (cred_roles c) role))
                    (sessions w) (sessions w') ∧
         (forall k s now, sessions w !! k = Some s ->
            cred_id (sess_credentials s) = a -> Unix now < Unix (sess_exp s) ->
            ∃ s', session now k w' = (Ok s', w') ∧
                  Roles s' = filter (fun r => r ≠ role) (cred_roles c))).
Proof.
  intros Hwf Hid Hadm Hdb Ha. split.
  - intros Hrole Hup. eexists. split; [by eapply setRole_run|].
    match goal with |- propagated _ _ _ (sessions ?W) ∧ _ => set (w' := W) end.
    assert (Hp : propagated a (with_roles c (cred_roles c ++ [role]))
                   (sessions w) (sessions w')).
    { subst w'; simpl. rewrite <- Ha at 1.
      apply (refreshed_propagated (with_roles c _)). }
    split; [exact Hp|].
    intros k s now Hk Hs Hlive.
    destruct (propagated_session a _ w w' k s now Hp Hk Hs Hlive)
      as (s' & Hrun & Hroles).
    exists s'. split; [exact Hrun | exact Hroles].
  - intros Hup. eexists. split; [by eapply unsetRole_run|].
    match goal with |- propagated _ _ _ (sessions ?W) ∧ _ => set (w' := W) end.
    assert (Hp : propagated a (with_roles c (dropRole (cred_roles c) role))
                   (sessions w) (sessions w')).
    { subst w'; simpl. rewrite <- Ha at 1.
      apply (refreshed_propagated (with_roles c _)). }
    split; [exact Hp|].
    intros k s now Hk Hs Hlive.
    destruct (propagated_session a _ w w' k s now Hp Hk Hs Hlive)
      as (s' & Hrun & Hroles).
    exists s'. split; [exact Hrun|]. rewrite Hroles. simpl. apply dropRole_filter.
Qed.

(** On a store built by hand with an admin-flagged session: that session
    grants alice "editor", her stored session then validates with both
    roles, and the acting session is unchanged. *)
Lemma role_change_past_gate_example :
  let w := Demo.world (<[ "s-root" := Demo.rootSession ]>
                         {[ "s-alice" := Demo.aliceSession ]}) in
  ∃ w', setRole (Demo.goard DEFAULT_TTL) "s-root" 42 "editor" w = (Ok tt, w') ∧
        sessions w' !! "s-root" = Some Demo.rootSession ∧
        ∃ s', session (Hour / 2) "s-alice" w' = (Ok s', w') ∧
              Roles s' = ["reader"; "editor"].
Proof.
  intros w.
  destruct (role_change_past_gate (Demo.goard DEFAULT_TTL) "s-root" 42 "editor" w
              Demo.rootSession Demo.alice Demo.ext0
              (Demo.mkExt [mkCredentials 42 "alice" "h$secret" ["reader"; "editor"]] 42 []))
    as [Hgrant _].
  - apply (store_wf_insert _ Demo.rootSession).
    apply (store_wf_singleton Demo.aliceSession).
  - apply lookup_insert_eq.
  - reflexivity.
  - reflexivity.
  - reflexivity.
  - destruct Hgrant as (w' & Hrun & (_ & Hother & _) & Hsee).
    + simpl. rewrite elem_of_cons, elem_of_nil. intros [?|[]]. discriminate.
    + reflexivity.
    + exists w'. split; [exact Hrun|]. split.
      * apply (Hother "s-root" Demo.rootSession); [apply lookup_insert_eq | discriminate].
      * apply (Hsee "s-alice" Demo.aliceSession (Hour / 2)).
        -- subst w; simpl. rewrite lookup_insert_ne by discriminate.
           apply lookup_singleton_eq.
        -- reflexivity.
        -- vm_compute. reflexivity.
Defined.

(** ** The admin gate in reachable worlds *)

Lemma gate_keeps_store {X : Type} (g : Goard X) (id : string) (account : Z)
    (role : string) (w : World X) :
  (forall k s, sessions w !! k = Some s -> sess_admin s = false) ->
  setRole g id account role w =
    (Err (match sessions w !! id with
          | Some _ => ErrAccessDenied
          | None => ErrSessionNotFound
          end), w) ∧
  unsetRole g id account role w =
    (Err (match sessions w !! id with
          | Some _ => ErrAccessDenied
          | None => ErrSessionNotFound
          end), w).
Proof.
  intros Hno. unfold setRole, unsetRole, bind, InvokeSession.
  destruct (sessions w !! id) as [actor|] eqn:Hid; [|done].
  by rewrite (Hno id actor Hid).
Qed.

(** C6. In every world reached from the empty store no stored session
    carries the [admin] flag, the session of the configured admin included.
    So a grant, of a role the target holds or not, made with a stored
    session is answered [ErrAccessDenied], never [ErrRoleConflict], and a
    revoke, of a role the target holds or not, is answered
    [ErrAccessDenied], never nil; with an id that is not in the store both
    are answered [ErrSessionNotFound].  In each case the world is the one
    before the call: no repository call, same store. *)
Theorem held_grant_and_absent_revoke_denied {X : Type} (g : Goard X) (x0 : X)
    (w : World X) (id : string) (account : Z) (role : string) :
  reachable g x0 w ->
  (forall actor, sessions w !! id = Some actor ->
     sess_admin actor = false ∧
     setRole g id account role w = (Err ErrAccessDenied, w) ∧
     unsetRole g id account role w = (Err ErrAccessDenied, w)) ∧
  (sessions w !! id = None ->
     setRole g id account role w = (Err ErrSessionNotFound, w) ∧
     unsetRole g id account role w = (Err ErrSessionNotFound, w)) ∧
  (setRole g id account role w).1 ≠ Err ErrRoleConflict ∧
  (unsetRole g id account role w).1 ≠ Ok tt.
Proof.
  intros Hr. pose proof (reachable_no_admin g x0 w Hr) as Hno.
  destruct (gate_keeps_store g id account role w Hno) as [Hset Hunset].
  split; [|split; [|split]].
  - intros actor Hid. split; [by eapply Hno|].
    rewrite Hid in Hset, Hunset. by split.
  - intros Hid. rewrite Hid in Hset, Hunset. by split.
  - rewrite Hset. simpl. by destruct (sessions w !! id).
  - rewrite Hunset. simpl. by destruct (sessions w !! id).
Qed.

(** The configured admin signs in, alice signs in; with the session of the
    admin, granting alice the role "reader" that her record holds is
    answered [ErrAccessDenied], and so is revoking "editor", which her
    record does not hold. *)
Lemma held_grant_and_absent_revoke_denied_witness :
  let g := Demo.goard DEFAULT_TTL in
  let w1 := (signin g Background (3 * Hour) "6f1c" "root" "toor"
                    (NewWorld Demo.ext0)).2 in
  let w := (signin g Background (3 * Hour) "9d2e" "alice" "secret" w1).2 in
  sessions w !! "6f1c" = Some (adminSession g (3 * Hour) "6f1c") ∧
  (CredentialsByID (database g) 42 (ext w)).1 = Ok Demo.alice ∧
  hasRole (cred_roles Demo.alice) "reader" = true ∧
  hasRole (cred_roles Demo.alice) "editor" = false ∧
  setRole g "6f1c" 42 "reader" w = (Err ErrAccessDenied, w) ∧
  unsetRole g "6f1c" 42 "editor" w = (Err ErrAccessDenied, w).
Proof.
  intros g w1 w.
  assert (Hr : reachable g Demo.ext0 w).
  { eapply rtc_l; [apply step_signin|]. apply rtc_once. apply step_signin. }
  assert (Hid : sessions w !! "6f1c" = Some (adminSession g (3 * Hour) "6f1c"))
    by (vm_compute; reflexivity).
  split; [exact Hid|]. split; [vm_compute; reflexivity|].
  split; [reflexivity|]. split; [reflexivity|].
  split.
  - destruct (held_grant_and_absent_revoke_denied g Demo.ext0 w "6f1c" 42
                "reader" Hr) as (Hstored & _).
    destruct (Hstored _ Hid) as (_ & Hset & _). exact Hset.
  - destruct (held_grant_and_absent_revoke_denied g Demo.ext0 w "6f1c" 42
                "editor" Hr) as (Hstored & _).
    destruct (Hstored _ Hid) as (_ & _ & Hunset). exact Hunset.
Defined.

(** C7. In every world reached from the empty store a grant or a revoke
    never succeeds: it is answered [ErrSessionNotFound] or
    [ErrAccessDenied] and leaves the world as it was, so no session is
    replaced and validating a stored session that is still valid returns
    that very session, with the credentials it had before the call. *)
Theorem role_change_not_propagated {X : Type} (g : Goard X) (x0 : X)
    (w : World X) (id : string) (a : Z) (role : string) :
  reachable g x0 w ->
  forall r w',
    setRole g id a role w = (r, w') ∨ unsetRole g id a role w = (r, w') ->
    (r = Err ErrSessionNotFound ∨ r = Err ErrAccessDenied) ∧
    r ≠ Ok tt ∧
    w' = w ∧
    (forall k s now,
       sessions w !! k = Some s -> Unix now < Unix (sess_exp s) ->
       sessions w' !! k = Some s ∧ session now k w' = (Ok s, w')).
Proof.
  intros Hr r w' Hrun.
  pose proof (reachable_no_admin g x0 w Hr) as Hno.
  destruct (gate_keeps_store g id a role w Hno) as [Hset Hunset].
  assert (Hrw : (r = Err ErrSessionNotFound ∨ r = Err ErrAccessDenied) ∧ w' = w).
  { destruct Hrun as [Hrun|Hrun];
      [rewrite Hset in Hrun | rewrite Hunset in Hrun];
      injection Hrun as <- <-; (split; [|done]);
      (destruct (sessions w !! id); [by right | by left]). }
  destruct Hrw as [Hres ->].
  split; [exact Hres|]. split; [by destruct Hres as [-> | ->]|].
  split; [done|].
  intros k s now Hk Hlive. split; [exact Hk|].
  unfold session, InvokeSession.
  rewrite bool_decide_eq_false_2 by (by eapply Count_lookup).
  rewrite Hk. destruct (Z.gtb_spec (Unix (sess_exp s)) (Unix now)); [done|lia].
Qed.

(** The configured admin signs in, alice signs in; with the session of the
    admin, granting "editor" to alice's account is answered
    [ErrAccessDenied], and an hour later alice's session validates with the
    roles it had. *)
Lemma role_change_not_propagated_witness :
  let g := Demo.goard DEFAULT_TTL in
  let w1 := (signin g Background (3 * Hour) "6f1c" "root" "toor"
                    (NewWorld Demo.ext0)).2 in
  let w := (signin g Background (3 * Hour) "9d2e" "alice" "secret" w1).2 in
  let r := setRole g "6f1c" 42 "editor" w in
  r.1 = Err ErrAccessDenied ∧ r.2 = w ∧
  ∃ s, sessions w !! "9d2e" = Some s ∧
       cred_id (sess_credentials s) = 42 ∧
       session (4 * Hour) "9d2e" r.2 = (Ok s, r.2) ∧ Roles s = ["reader"].
Proof.
  intros g w1 w r.
  assert (Hr : reachable g Demo.ext0 w).
  { eapply rtc_l; [apply step_signin|]. apply rtc_once. apply step_signin. }
  set (s := mkSession "9d2e" (mkAccount 42) Demo.alice (11 * Hour) (3 * Hour) false).
  assert (Hk : sessions w !! "9d2e" = Some s) by (vm_compute; reflexivity).
  assert (Hp : setRole g "6f1c" 42 "editor" w = (r.1, r.2))
    by apply surjective_pairing.
  destruct (role_change_not_propagated g Demo.ext0 w "6f1c" 42 "editor" Hr
              r.1 r.2 (or_introl Hp)) as (_ & _ & Hw & Hsee).
  split; [vm_compute; reflexivity|]. split; [exact Hw|].
  exists s. split; [exact Hk|]. split; [reflexivity|].
  destruct (Hsee "9d2e" s (4 * Hour) Hk) as [_ Hrun]; [vm_compute; reflexivity|].
  split; [exact Hrun | reflexivity].
Defined.

(** Since no operation stores a session with the [admin] flag, the gate at
    the head of [setRole] and [unsetRole] rejects every call made in a
    world reached from the empty store: the acting id is either unknown or
    its session is not an admin session, and nothing is changed. *)
Theorem role_mutation_unreachable {X : Type} (g : Goard X) (x0 : X) (w : World X)
    (id : string) (account : Z) (role : string) :
  reachable g x0 w ->
  (setRole g id account role w = (Err ErrSessionNotFound, w) ∨
   setRole g id account role w = (Err ErrAccessDenied, w)) ∧
  (unsetRole g id account role w = (Err ErrSessionNotFound, w) ∨
   unsetRole g id account role w = (Err ErrAccessDenied, w)).
Proof.
  intros Hr. pose proof (reachable_no_admin g x0 w Hr) as Hno.
  unfold setRole, unsetRole, bind, InvokeSession.
  destruct (sessions w !! id) as [actor|] eqn:Hid.
  - rewrite (Hno id actor Hid). simpl. split; by right.
  - split; by left.
Qed.

(** The admin of the stand-in service signs in with the configured
    password and then tries to grant alice a role. *)
Lemma role_mutation_unreachable_witness :
  let g := Demo.goard DEFAULT_TTL in
  let w := (signin g Background (3 * Hour) "6f1c" "root" "toor"
                   (NewWorld Demo.ext0)).2 in
  sessions w !! "6f1c" = Some (adminSession g (3 * Hour) "6f1c") ∧
  setRole g "6f1c" 42 "editor" w = (Err ErrAccessDenied, w).
Proof.
  intros g w. split; [vm_compute; reflexivity|].
  destruct (role_mutation_unreachable g Demo.ext0 w "6f1c" 42 "editor")
    as [[Hs|Hs] _].
  - apply rtc_once. apply step_signin.
  - exfalso. assert (Hv : (setRole g "6f1c" 42 "editor" w).1 = Err ErrAccessDenied)
      by (vm_compute; reflexivity).
    rewrite Hs in Hv. discriminate.
  - exact Hs.
Defined.

(** * Further properties of the operations *)

(** ** The three answers of [session] *)

Lemma session_absent {X : Type} (now : Time) (id : string) (w : World X) :
  sessions w !! id = None -> session now id w = (Err ErrSessionNotFound, w).
Proof.
  intros Hn. unfold session, InvokeSession. rewrite Hn. by case_bool_decide.
Qed.

Lemma session_live {X : Type} (now : Time) (id : string) (w : World X) (s : Session) :
  sessions w !! id = Some s -> Unix now < Unix (sess_exp s) ->
  session now id w = (Ok s, w).
Proof.
  intros Hs Hlt. unfold session, InvokeSession.
  rewrite bool_decide_eq_false_2 by (by eapply Count_lookup).
  rewrite Hs. destruct (Z.gtb_spec (Unix (sess_exp s)) (Unix now)); [done | lia].
Qed.

Lemma session_expired {X : Type} (now : Time) (id : string) (w : World X) (s : Session) :
  sessions w !! id = Some s -> Unix (sess_exp s) ≤ Unix now ->
  session now id w = (Err ErrSessionExpired, spawn (TaskRevoke id) w).
Proof.
  intros Hs Hle. unfold session, InvokeSession.
  rewrite bool_decide_eq_false_2 by (by eapply Count_lookup).
  rewrite Hs. destruct (Z.gtb_spec (Unix (sess_exp s)) (Unix now)); [lia | done].
Qed.

(** ** Sign-in: rejections, the credential path, the calls it makes *)

(** X2. [signin] rejects an empty login or password with
    [ErrBadCredentials], and a context already cancelled at its first
    [select] with the context's error; in both cases the world is exactly as
    before: no session is revoked and no collaborator is called. *)
Theorem signin_rejects_untouched {X : Type} (g : Goard X) ctx now uuid
    (L p : string) (w : World X) :
  (L = "" ∨ p = "" -> signin g ctx now uuid L p w = (Err ErrBadCredentials, w)) ∧
  (forall e, L ≠ "" -> p ≠ "" -> ctx 0%nat = Some e ->
     signin g ctx now uuid L p w = (Err e, w)).
Proof.
  split.
  - intros Hempty. unfold signin.
    destruct Hempty as [-> | ->]; simpl; [done|].
    by rewrite orb_true_r.
  - intros e HL Hp Hc. unfold signin.
    rewrite !bool_decide_eq_false_2 by done. simpl.
    unfold bind, check. by rewrite Hc.
Qed.

(** An empty password for alice, and a request whose context is already
    cancelled, each while alice's session is stored. *)
Lemma signin_rejects_untouched_witness :
  let w := Demo.world {[ "s-alice" := Demo.aliceSession ]} in
  signin (Demo.goard DEFAULT_TTL) Background (3 * Hour) "9d2e" "alice" "" w
    = (Err ErrBadCredentials, w) ∧
  signin (Demo.goard DEFAULT_TTL) (fun _ => Some ErrCanceled) (3 * Hour) "9d2e"
         "alice" "guess" w = (Err ErrCanceled, w).
Proof.
  intros w. split.
  - apply (proj1 (signin_rejects_untouched (Demo.goard DEFAULT_TTL) Background
                    (3 * Hour) "9d2e" "alice" "" w)). by right.
  - apply (proj2 (signin_rejects_untouched (Demo.goard DEFAULT_TTL)
                    (fun _ => Some ErrCanceled) (3 * Hour) "9d2e" "alice" "guess" w));
      [discriminate | discriminate | reflexivity].
Defined.

(** X3. The credential path of [signin]: for a login and password that
    are not the admin's, a record [c] found by login, its account resolved
    and the password accepted by the hasher, [signin] returns a session with
    the fresh id, that account, the record [c] as found (so the session's
    roles are the stored roles), issued at [now] and expiring [ttl] later;
    it is stored in place of the earlier sessions of the login, and the
    collaborators were called exactly three times, in the order
    [CredentialsByLogin], [AccountByID], [Compare]. *)
Theorem signin_credentials_run {X : Type} (g : Goard X) ctx now uuid
    (L p : string) (w : World X) (c : Credentials) (acc : Account) (x1 x2 x3 : X) :
  L ≠ "" -> p ≠ "" ->
  ¬ (L = admin_Login (admin g) ∧ p = admin_Password (admin g)) ->
  (forall n, (n < 6)%nat -> ctx n = None) ->
  store_wf (sessions w) ->
  CredentialsByLogin (database g) L (ext w) = (Ok c, x1) ->
  AccountByID (app g) (cred_id c) x1 = (Ok acc, x2) ->
  Compare (hasher g) (cred_passhash c) p x2 = (true, x3) ->
  let s := mkSession uuid acc c (Add now (ttl g)) now false in
  signin g ctx now uuid L p w =
    (Ok s,
     mkWorld (<[uuid := s]> (others L (sessions w))) x3
             (trace w ++ [CallCredentialsByLogin L; CallAccountByID (cred_id c);
                          CallCompare (cred_passhash c) p])
             (pending w)) ∧
  Roles s = cred_roles c.
Proof.
  intros HL Hp Hadm Hctx Hwf Hdb Happ Hcmp s. split; [|done].
  unfold signin. rewrite !bool_decide_eq_false_2 by done. simpl.
  unfold bind at 1. rewrite check_None by (apply Hctx; lia).
  unfold bind at 1. rewrite ForEach_revokeSameLogin by done.
  unfold bind at 1. rewrite check_None by (apply Hctx; lia).
  assert (Hna : bool_decide (L = admin_Login (admin g)) &&
                bool_decide (p = admin_Password (admin g)) = false).
  { destruct (bool_decide (L = admin_Login (admin g))) eqn:H1; [|done].
    destruct (bool_decide (p = admin_Password (admin g))) eqn:H2; [|done].
    apply bool_decide_eq_true in H1. apply bool_decide_eq_true in H2. tauto. }
  rewrite Hna.
  unfold bind at 1. rewrite check_None by (apply Hctx; lia).
  unfold bind at 1, call. erewrite logged_run by (simpl; exact Hdb).
  unfold bind at 1. rewrite check_None by (apply Hctx; lia).
  unfold bind at 1. erewrite logged_run by (simpl; exact Happ).
  unfold bind at 1. rewrite check_None by (apply Hctx; lia).
  unfold bind at 1, callv. erewrite logged_run by (simpl; exact Hcmp). simpl.
  unfold bind at 1. rewrite check_None by (apply Hctx; lia).
  unfold bind, CreateSession, ret, set_sessions, others. simpl.
  by rewrite <- !app_assoc.
Qed.

Lemma signin_credentials_run_witness :
  let w := Demo.world {[ "s-alice" := Demo.aliceSession ]} in
  let s := mkSession "9d2e" (mkAccount 42) Demo.alice (11 * Hour) (3 * Hour) false in
  signin (Demo.goard DEFAULT_TTL) Background (3 * Hour) "9d2e" "alice" "secret" w =
    (Ok s,
     mkWorld (<[ "9d2e" := s ]> (others "alice" {[ "s-alice" := Demo.aliceSession ]}))
             Demo.ext0
             [CallCredentialsByLogin "alice"; CallAccountByID 42;
              CallCompare "h$secret" "secret"] []) ∧
  Roles s = ["reader"].
Proof.
  intros w s.
  apply (signin_credentials_run (Demo.goard DEFAULT_TTL) Background (3 * Hour)
           "9d2e" "alice" "secret" w Demo.alice (mkAccount 42)
           Demo.ext0 Demo.ext0 Demo.ext0);
    try reflexivity; try discriminate.
  - intros [? _]. discriminate.
  - apply (store_wf_singleton Demo.aliceSession).
Defined.


(** The same inversions for a run known to have succeeded. *)
Ltac inv_bind_ok H Hstep a :=
  apply bind_inv in H as [(a & ? & Hstep & H)|(? & _ & ?)]; [|discriminate].
Ltac inv_check_ok H :=
  let Hs := fresh "Hs" in
  let u := fresh "u" in
  inv_bind_ok H Hs u;
  apply check_inv in Hs as [-> [[? _]|(? & _ & ?)]]; [|discriminate].

Lemma ForEach_revokeSameLogin_frame {X : Type} (L : string) (w : World X) :
  ∃ m, ForEach (revokeSameLogin L) w = (Ok tt, set_sessions m w).
Proof.
  eexists. unfold ForEach.
  apply (forEachLoop_fold (revokeSameLogin L)
           (revokeUnless (fun s => bool_decide (cred_login (sess_credentials s) ≠ L)))).
  intros s w'. unfold revokeSameLogin, revokeUnless, ret, RevokeSession.
  case_bool_decide; [by rewrite set_sessions_id | done].
Qed.




(** ** Sign-out and the life of a session *)

(** X5. [signout]: on an empty store it succeeds at once, even under a
    cancelled context; on a non-empty store a cancelled context makes it
    fail with the context's error and leave the session in place; otherwise
    it succeeds whether or not the id is stored, removes that id and nothing
    else, and the id then validates as [ErrSessionNotFound].  Signing out
    twice is the same as signing out once. *)
Theorem signout_spec {X : Type} (ctx : Ctx) (sessionID : string) (w : World X) :
  (sessions w = ∅ -> signout ctx sessionID w = (Ok tt, w)) ∧
  (forall e, sessions w ≠ ∅ -> ctx 0%nat = Some e ->
     signout ctx sessionID w = (Err e, w)) ∧
  (sessions w ≠ ∅ -> ctx 0%nat = None ->
     signout ctx sessionID w =
       (Ok tt, set_sessions (delete sessionID (sessions w)) w)) ∧
  (ctx 0%nat = None ->
     (signout ctx sessionID w).1 = Ok tt ∧
     (forall now, (session now sessionID (signout ctx sessionID w).2).1
                  = Err ErrSessionNotFound) ∧
     (forall k, k ≠ sessionID ->
        sessions (signout ctx sessionID w).2 !! k = sessions w !! k) ∧
     signout ctx sessionID (signout ctx sessionID w).2
       = (Ok tt, (signout ctx sessionID w).2)).
Proof.
  assert (Hrun : sessions w ≠ ∅ -> ctx 0%nat = None ->
     signout ctx sessionID w =
       (Ok tt, set_sessions (delete sessionID (sessions w)) w)).
  { intros Hne Hc. unfold signout.
    rewrite bool_decide_eq_false_2 by (by rewrite Count_zero).
    unfold bind. by rewrite check_None. }
  assert (Hempty : sessions w = ∅ -> signout ctx sessionID w = (Ok tt, w)).
  { intros He. unfold signout. by rewrite bool_decide_eq_true_2 by (by apply Count_zero). }
  split; [exact Hempty|]. split; [|split; [exact Hrun|]].
  - intros e Hne Hc. unfold signout.
    rewrite bool_decide_eq_false_2 by (by rewrite Count_zero).
    unfold bind, check. by rewrite Hc.
  - intros Hc.
    assert (Hgone : sessions (signout ctx sessionID w).2 !! sessionID = None).
    { destruct (decide (sessions w = ∅)) as [He|Hne].
      - rewrite Hempty by done. simpl. by rewrite He, lookup_empty.
      - rewrite Hrun by done. simpl. apply lookup_delete_eq. }
    split; [|split; [|split]].
    + destruct (decide (sessions w = ∅)); [by rewrite Hempty | by rewrite Hrun].
    + intros now.
      by rewrite session_absent.
    + intros k Hk. destruct (decide (sessions w = ∅)) as [He|Hne].
      * by rewrite Hempty.
      * rewrite Hrun by done. simpl. by rewrite lookup_delete_ne.
    + destruct (decide (sessions w = ∅)) as [He|Hne].
      * rewrite !Hempty; auto.
      * rewrite Hrun by done. unfold signout. simpl.
        case_bool_decide; [done|]. unfold bind. rewrite check_None by done.
        unfold RevokeSession, set_sessions. simpl. by rewrite delete_delete_eq.
Qed.

(** alice signs out (her session and another are stored), and signs out
    again. *)
Lemma signout_spec_witness :
  let w := Demo.world (<[ "s-root" := Demo.rootSession ]>
                         {[ "s-alice" := Demo.aliceSession ]}) in
  let w' := (signout Background "s-alice" w).2 in
  (session Hour "s-alice" w').1 = Err ErrSessionNotFound ∧
  sessions w' !! "s-root" = Some Demo.rootSession ∧
  signout Background "s-alice" w' = (Ok tt, w').
Proof.
  intros w w'.
  destruct (signout_spec Background "s-alice" w) as (_ & _ & _ & Hout).
  destruct (Hout eq_refl) as (_ & Hnf & Hother & Htwice).
  split; [apply Hnf|]. split; [|exact Htwice].
  subst w'. rewrite Hother by discriminate.
  subst w; simpl. apply lookup_insert_eq.
Defined.

(** X6. Sign-in followed by validation: the session returned by a
    successful [signin] validates, under its id, as that very session at
    every time whose Unix second is before that of its expiry, in
    particular at the time of the sign-in itself when the ttl is at least one
    second; from the Unix second of its expiry on it validates as
    [ErrSessionExpired]. *)
Theorem signin_then_session {X : Type} (g : Goard X) ctx now uuid (L p : string)
    (w : World X) (s : Session) (w' : World X) :
  store_wf (sessions w) ->
  signin g ctx now uuid L p w = (Ok s, w') ->
  (forall now', Unix now' < Unix (sess_exp s) ->
     session now' (sess_id s) w' = (Ok s, w')) ∧
  (Second ≤ ttl g -> session now (sess_id s) w' = (Ok s, w')) ∧
  (forall now', Unix (sess_exp s) ≤ Unix now' ->
     (session now' (sess_id s) w').1 = Err ErrSessionExpired).
Proof.
  intros Hwf Hrun.
  destruct (signin_cases g ctx now uuid L p w (Ok s) w' Hwf Hrun)
    as [_ [(? & _)|[(_ & _ & ? & _ & ? & _)|[(_ & _ & _ & ? & ? & _)|Hok]]]];
    try discriminate.
  destruct Hok as (_ & _ & _ & s1 & [= <-] & Hst & Hid & _ & Hexp & _).
  assert (Hk : sessions w' !! sess_id s = Some s)
    by (rewrite Hst, Hid; apply lookup_insert_eq).
  split; [|split].
  - intros now' Hlt. by apply session_live.
  - intros Httl. apply session_live; [done|]. rewrite Hexp.
    unfold Unix, Add, Second in *.
    apply Z.lt_le_trans with ((now + 1000000000) `div` 1000000000).
    + replace (now + 1000000000) with (now + 1 * 1000000000) by lia.
      rewrite Z.div_add by lia. lia.
    + apply Z.div_le_mono; lia.
  - intros now' Hle. by rewrite (session_expired now' (sess_id s) w' s).
Qed.

Lemma signin_then_session_witness :
  let r := signin (Demo.goard DEFAULT_TTL) Background (3 * Hour) "9d2e"
                  "alice" "secret" (Demo.world ∅) in
  ∃ s, r.1 = Ok s ∧
       session (10 * Hour) "9d2e" r.2 = (Ok s, r.2) ∧
       (session (11 * Hour) "9d2e" r.2).1 = Err ErrSessionExpired.
Proof.
  intros r.
  set (s := mkSession "9d2e" (mkAccount 42) Demo.alice (11 * Hour) (3 * Hour) false).
  assert (Hrun : signin (Demo.goard DEFAULT_TTL) Background (3 * Hour) "9d2e"
                   "alice" "secret" (Demo.world ∅) = (Ok s, r.2))
    by (vm_compute; reflexivity).
  destruct (signin_then_session (Demo.goard DEFAULT_TTL) Background (3 * Hour)
              "9d2e" "alice" "secret" (Demo.world ∅) s r.2 store_wf_empty Hrun)
    as (Hlive & _ & Hdead).
  exists s. split; [vm_compute; reflexivity|]. split.
  - apply (Hlive (10 * Hour)). vm_compute. reflexivity.
  - apply (Hdead (11 * Hour)). vm_compute. discriminate.
Defined.

(** ** Sign-up: the complete run, early rejections, and the rollback *)

(** X7. The complete run of [signup]: with valid input, a created account,
    no record under its id nor under the login, a hash and an accepted
    insert, [signup] returns nil after exactly six calls, in the order
    [Validate], [CreateAccount], [CredentialsByID], [CredentialsByLogin],
    [Hash], [CreateCredentials]; the record inserted has the id of the new
    account, the login, the hash just computed and no role; the account is
    not deleted and the session store is untouched (signing up does not sign
    in). *)
Theorem signup_success_run {X : Type} (g : Goard X) ctx
    (account login password : string) (w : World X)
    (x0 x1 x2 x3 x4 x5 : X) (acc : Account) (e1 e2 : error) (passhash : string) :
  (forall n, (n < 6)%nat -> ctx n = None) ->
  Validate (validator g) login password (ext w) = (true, x0) ->
  CreateAccount (app g) account x0 = (Ok acc, x1) ->
  CredentialsByID (database g) (GetID acc) x1 = (Err e1, x2) ->
  errors_Is e1 ErrCredentialsNotFound = true ->
  CredentialsByLogin (database g) login x2 = (Err e2, x3) ->
  errors_Is e2 ErrCredentialsNotFound = true ->
  Hash (hasher g) password x3 = (Ok passhash, x4) ->
  CreateCredentials (database g)
    (mkCredentials (GetID acc) login passhash []) x4 = (None, x5) ->
  signup g ctx account login password w =
    (None,
     mkWorld (sessions w) x5
       (trace w ++ [CallValidate login password; CallCreateAccount account;
                    CallCredentialsByID (GetID acc); CallCredentialsByLogin login;
                    CallHash password;
                    CallCreateCredentials (mkCredentials (GetID acc) login passhash [])])
       (pending w)).
Proof.
  intros Hctx Hv Hc Hid Hnf1 Hlogin Hnf2 Hhash Hins.
  unfold signup. rewrite (Hctx 0%nat) by lia.
  rewrite (logged_run _ _ w true x0) by done. simpl. rewrite (Hctx 1%nat) by lia.
  erewrite logged_run by (simpl; exact Hc). simpl.
  unfold signup_steps. rewrite (Hctx 2%nat) by lia.
  erewrite logged_run by (simpl; exact Hid). simpl. rewrite Hnf1. simpl.
  rewrite (Hctx 3%nat) by lia.
  erewrite logged_run by (simpl; exact Hlogin). simpl. rewrite Hnf2. simpl.
  rewrite (Hctx 4%nat) by lia.
  erewrite logged_run by (simpl; exact Hhash). simpl.
  rewrite (Hctx 5%nat) by lia.
  erewrite logged_run by (simpl; exact Hins). simpl.
  by rewrite <- !app_assoc.
Qed.

(** carol signs up on the stand-in service, whose next free account id is
    50. *)
Lemma signup_success_run_witness :
  signup (Demo.goard DEFAULT_TTL) Background "{}" "carol" "pw"
         (mkWorld ∅ (Demo.mkExt [Demo.alice] 50 []) [] []) =
    (None,
     mkWorld ∅ (Demo.mkExt [Demo.alice; mkCredentials 50 "carol" "h$pw" []] 51 [])
       [CallValidate "carol" "pw"; CallCreateAccount "{}";
        CallCredentialsByID 50; CallCredentialsByLogin "carol";
        CallHash "pw"; CallCreateCredentials (mkCredentials 50 "carol" "h$pw" [])]
       []).
Proof.
  apply (signup_success_run (Demo.goard DEFAULT_TTL) Background "{}" "carol" "pw"
           (mkWorld ∅ (Demo.mkExt [Demo.alice] 50 []) [] [])
           (Demo.mkExt [Demo.alice] 50 []) (Demo.mkExt [Demo.alice] 51 [])
           (Demo.mkExt [Demo.alice] 51 []) (Demo.mkExt [Demo.alice] 51 [])
           (Demo.mkExt [Demo.alice] 51 [])
           (Demo.mkExt [Demo.alice; mkCredentials 50 "carol" "h$pw" []] 51 [])
           (mkAccount 50) ErrCredentialsNotFound ErrCredentialsNotFound "h$pw");
    reflexivity.
Defined.

(** A second sign-up under alice's login: the account 50 created for it is
    deleted again. *)
Lemma signup_login_conflict_rolls_back_witness :
  signup (Demo.goard DEFAULT_TTL) Background "{}" "alice" "pw"
         (mkWorld ∅ (Demo.mkExt [Demo.alice] 50 []) [] []) =
    (Some ErrCredentialsConflict,
     mkWorld ∅ (Demo.mkExt [Demo.alice] 51 [50])
       [CallValidate "alice" "pw"; CallCreateAccount "{}";
        CallCredentialsByID 50; CallCredentialsByLogin "alice";
        CallDeleteAccount 50]
       []).
Proof.
  apply (signup_login_conflict_rolls_back (Demo.goard DEFAULT_TTL) Background
           "{}" "alice" "pw" (mkWorld ∅ (Demo.mkExt [Demo.alice] 50 []) [] [])
           (Demo.mkExt [Demo.alice] 50 []) (Demo.mkExt [Demo.alice] 51 [])
           (Demo.mkExt [Demo.alice] 51 []) (Demo.mkExt [Demo.alice] 51 [])
           (Demo.mkExt [Demo.alice] 51 [50])
           (mkAccount 50) Demo.alice ErrCredentialsNotFound None);
    reflexivity.
Defined.

(** X9. [signup] gives up before any account exists when the validator
    rejects the input (with the default validator: when the login or the
    password is empty), returning [ErrBadCredentials] after the single call
    [Validate]; and when [CreateAccount] fails, its error is returned as it
    is and nothing else is called, in particular no rollback. *)
Theorem signup_rejected_early {X : Type} (g : Goard X) ctx
    (account login password : string) (w : World X) :
  ctx 0%nat = None ->
  (forall x0, Validate (validator g) login password (ext w) = (false, x0) ->
     signup g ctx account login password w =
       (Some ErrBadCredentials,
        mkWorld (sessions w) x0 (trace w ++ [CallValidate login password])
                (pending w))) ∧
  (validator g = NewDefaultValidator -> login = "" ∨ password = "" ->
     signup g ctx account login password w =
       (Some ErrBadCredentials,
        mkWorld (sessions w) (ext w) (trace w ++ [CallValidate login password])
                (pending w))) ∧
  (forall x0 x1 e, Validate (validator g) login password (ext w) = (true, x0) ->
     ctx 1%nat = None ->
     CreateAccount (app g) account x0 = (Err e, x1) ->
     signup g ctx account login password w =
       (Some e,
        mkWorld (sessions w) x1
                (trace w ++ [CallValidate login password; CallCreateAccount account])
                (pending w))).
Proof.
  intros H0.
  assert (Hrej : forall x0,
     Validate (validator g) login password (ext w) = (false, x0) ->
     signup g ctx account login password w =
       (Some ErrBadCredentials,
        mkWorld (sessions w) x0 (trace w ++ [CallValidate login password])
                (pending w))).
  { intros x0 Hv. unfold signup. rewrite H0.
    by rewrite (logged_run _ _ w false x0) by done. }
  split; [exact Hrej|]. split.
  - intros Hdef Hempty. apply Hrej. rewrite Hdef. simpl.
    unfold noValidation_Validate.
    destruct Hempty as [-> | ->]; simpl; [done|]. by rewrite orb_true_r.
  - intros x0 x1 e Hv H1 Hc. unfold signup. rewrite H0.
    rewrite (logged_run _ _ w true x0) by done. simpl. rewrite H1.
    erewrite logged_run by (simpl; exact Hc). simpl.
    by rewrite <- !app_assoc.
Qed.

Lemma signup_rejected_early_witness :
  signup (Demo.goard DEFAULT_TTL) Background "{}" "carol" "" (Demo.world ∅) =
    (Some ErrBadCredentials,
     mkWorld ∅ Demo.ext0 [CallValidate "carol" ""] []).
Proof.
  destruct (signup_rejected_early (Demo.goard DEFAULT_TTL) Background "{}" "carol" ""
              (Demo.world ∅) eq_refl) as (_ & Hdef & _).
  apply Hdef; [reflexivity | by right].
Defined.

(** Closing tactics for statements about a concrete list of calls. *)
Ltac no_delete_in :=
  let id := fresh "id" in
  let Hin := fresh "Hin" in
  intros id Hin;
  repeat (apply elem_of_cons in Hin as [Hin|Hin]; [discriminate|]);
  by apply elem_of_nil in Hin.

Ltac delete_only_last :=
  let i := fresh "i" in
  let id := fresh "id" in
  let Hi := fresh "Hi" in
  intros i id Hi;
  repeat first [ discriminate Hi | destruct i as [|i]; simpl in Hi ];
  by injection Hi as <-.

(** Closes the conjuncts of a statement about [signup] that describe a
    situation other than the one of the run at hand, or that very one. *)
Ltac signup_situation :=
  intros; first [ congruence | split; congruence ].

(** X10. The rollback of [signup], exactly.  Once the account [acc] exists,
    [DeleteAccount] is not called at all in four situations, and in each of
    them the calls made after the creation are the ones listed: the run
    succeeded; the context was found cancelled at the [select] right after
    the creation (the run fails with the context's error, no further call);
    the repository already held a record under the id of [acc] (the run
    fails with [ErrCredentialsConflict], the only call is that lookup); the
    context was found cancelled at the [select] between hashing and
    inserting (the run fails with the context's error after the two lookups
    and the hashing).  In every other run the sign-up fails and its last
    call is [DeleteAccount] for the id of [acc] (whose own result is
    ignored).  In no run is [DeleteAccount] called for another id, more
    than once, or followed by another call. *)
Theorem signup_rollback_cases {X : Type} (g : Goard X) ctx
    (account login password : string) (w : World X)
    (x0 x1 : X) (acc : Account) (r : option error) (w' : World X) :
  ctx 0%nat = None -> ctx 1%nat = None ->
  Validate (validator g) login password (ext w) = (true, x0) ->
  CreateAccount (app g) account x0 = (Ok acc, x1) ->
  signup g ctx account login password w = (r, w') ->
  ∃ evs,
    trace w' = trace w ++ [CallValidate login password; CallCreateAccount account]
                       ++ evs ∧
    (forall i id, evs !! i = Some (CallDeleteAccount id) ->
       id = GetID acc ∧ S i = length evs) ∧
    (r = None -> forall id, CallDeleteAccount id ∉ evs) ∧
    (forall e, ctx 2%nat = Some e -> r = Some e ∧ evs = []) ∧
    (forall c x2,
       ctx 2%nat = None ->
       CredentialsByID (database g) (GetID acc) x1 = (Ok c, x2) ->
       r = Some ErrCredentialsConflict ∧ evs = [CallCredentialsByID (GetID acc)]) ∧
    (forall e e1 x2 e2 x3 passhash x4,
       ctx 2%nat = None ->
       CredentialsByID (database g) (GetID acc) x1 = (Err e1, x2) ->
       errors_Is e1 ErrCredentialsNotFound = true ->
       ctx 3%nat = None ->
       CredentialsByLogin (database g) login x2 = (Err e2, x3) ->
       errors_Is e2 ErrCredentialsNotFound = true ->
       ctx 4%nat = None ->
       Hash (hasher g) password x3 = (Ok passhash, x4) ->
       ctx 5%nat = Some e ->
       r = Some e ∧
       evs = [CallCredentialsByID (GetID acc); CallCredentialsByLogin login;
              CallHash password]) ∧
    ( (r ≠ None ∧ last evs = Some (CallDeleteAccount (GetID acc)))
    ∨ ((forall id, CallDeleteAccount id ∉ evs) ∧
       ( r = None
       ∨ (∃ e, ctx 2%nat = Some e)
       ∨ (ctx 2%nat = None ∧
          ∃ c x2, CredentialsByID (database g) (GetID acc) x1 = (Ok c, x2))
       ∨ (∃ e e1 x2 e2 x3 passhash x4,
            ctx 2%nat = None ∧
            CredentialsByID (database g) (GetID acc) x1 = (Err e1, x2) ∧
            errors_Is e1 ErrCredentialsNotFound = true ∧
            ctx 3%nat = None ∧
            CredentialsByLogin (database g) login x2 = (Err e2, x3) ∧
            errors_Is e2 ErrCredentialsNotFound = true ∧
            ctx 4%nat = None ∧
            Hash (hasher g) password x3 = (Ok passhash, x4) ∧
            ctx 5%nat = Some e) )) ).
Proof.
  intros H0 H1 Hv Hc Hrun. unfold signup in Hrun. rewrite H0 in Hrun.
  rewrite (logged_run _ _ w true x0) in Hrun by done. simpl in Hrun.
  rewrite H1 in Hrun.
  erewrite logged_run in Hrun by (simpl; exact Hc). simpl in Hrun.
  unfold signup_steps, signup_rollback in Hrun.
  destruct (ctx 2%nat) as [e|] eqn:H2.
  { injection Hrun as <- <-. exists []. simpl. rewrite <- ?app_assoc. simpl.
    split; [done|]. split; [delete_only_last|].
    split; [done|]. do 3 (split; [signup_situation|]).
    right. split; [no_delete_in|]. right; left. eauto. }
  destruct (logged (CallCredentialsByID (GetID acc)) _ _) as [rid wid] eqn:Hid
    in Hrun.
  apply logged_inv in Hid as (y2 & Hid & ->). simpl in Hid.
  destruct rid as [c|e1].
  { injection Hrun as <- <-. exists [CallCredentialsByID (GetID acc)]. simpl.
    rewrite <- !app_assoc. split; [done|]. split; [delete_only_last|].
    split; [done|]. do 3 (split; [signup_situation|]).
    right. split; [no_delete_in|]. right; right; left. eauto. }
  destruct (errors_Is e1 ErrCredentialsNotFound) eqn:He1; simpl in Hrun.
  2:{ destruct (logged (CallDeleteAccount (GetID acc)) _ _) as [o wd] eqn:Hd in Hrun.
      apply logged_inv in Hd as (y3 & _ & ->). injection Hrun as <- <-.
      exists [CallCredentialsByID (GetID acc); CallDeleteAccount (GetID acc)]. simpl.
      rewrite <- !app_assoc. split; [done|]. split; [delete_only_last|].
      split; [done|]. do 3 (split; [signup_situation|]).
      left. done. }
  destruct (ctx 3%nat) as [e|] eqn:H3.
  { destruct (logged (CallDeleteAccount (GetID acc)) _ _) as [o wd] eqn:Hd in Hrun.
    apply logged_inv in Hd as (y3 & _ & ->). injection Hrun as <- <-.
    exists [CallCredentialsByID (GetID acc); CallDeleteAccount (GetID acc)]. simpl.
    rewrite <- !app_assoc. split; [done|]. split; [delete_only_last|].
    split; [done|]. do 3 (split; [signup_situation|]).
    left. done. }
  destruct (logged (CallCredentialsByLogin login) _ _) as [rl wl] eqn:Hl in Hrun.
  apply logged_inv in Hl as (y3 & Hl & ->). simpl in Hl.
  match goal with |- ?G =>
    assert (Hroll3 : forall (e : error) (y4 : X),
      (forall e2, rl = Err e2 ->
         errors_Is e2 ErrCredentialsNotFound = true -> ctx 4%nat ≠ None) ->
      r = Some e ->
      w' = mkWorld (sessions w) y4
             (((((trace w ++ [CallValidate login password])
                   ++ [CallCreateAccount account])
                  ++ [CallCredentialsByID (GetID acc)])
                 ++ [CallCredentialsByLogin login])
                ++ [CallDeleteAccount (GetID acc)]) (pending w) -> G)
  end.
  { intros e y4 Hstop -> ->.
    exists [CallCredentialsByID (GetID acc); CallCredentialsByLogin login;
            CallDeleteAccount (GetID acc)]. simpl.
    rewrite <- !app_assoc. split; [done|]. split; [delete_only_last|].
    split; [done|]. do 2 (split; [signup_situation|]).
    split; [|left; done].
    intros e' e1' x2 e2' x3 passhash x4 _ Hid' _ _ Hl' He2' H4' _ _.
    assert (x2 = y2) as -> by congruence.
    destruct (Hstop e2'); [congruence | done | done]. }
  destruct rl as [c|e2].
  { destruct (logged (CallDeleteAccount (GetID acc)) _ _) as [o wd] eqn:Hd in Hrun.
    apply logged_inv in Hd as (y4 & _ & ->). simpl in Hrun.
    injection Hrun as <- <-. eapply Hroll3; [|reflexivity..]. by intros. }
  destruct (errors_Is e2 ErrCredentialsNotFound) eqn:He2; simpl in Hrun.
  2:{ destruct (logged (CallDeleteAccount (GetID acc)) _ _) as [o wd] eqn:Hd in Hrun.
      apply logged_inv in Hd as (y4 & _ & ->). simpl in Hrun.
      injection Hrun as <- <-. eapply Hroll3; [|reflexivity..].
      intros ? [= <-]. congruence. }
  destruct (ctx 4%nat) as [e|] eqn:H4.
  { destruct (logged (CallDeleteAccount (GetID acc)) _ _) as [o wd] eqn:Hd in Hrun.
    apply logged_inv in Hd as (y4 & _ & ->). simpl in Hrun.
    injection Hrun as <- <-. eapply Hroll3; [|reflexivity..]. by intros. }
  destruct (logged (CallHash password) _ _) as [rh wh] eqn:Hh in Hrun.
  apply logged_inv in Hh as (y4 & Hh & ->). simpl in Hh.
  destruct rh as [passhash|e3]; simpl in Hrun.
  2:{ destruct (logged (CallDeleteAccount (GetID acc)) _ _) as [o wd] eqn:Hd in Hrun.
      apply logged_inv in Hd as (y5 & _ & ->). injection Hrun as <- <-.
      exists [CallCredentialsByID (GetID acc); CallCredentialsByLogin login;
              CallHash password; CallDeleteAccount (GetID acc)]. simpl.
      rewrite <- !app_assoc. split; [done|]. split; [delete_only_last|].
      split; [done|]. do 3 (split; [signup_situation|]).
      left. done. }
  destruct (ctx 5%nat) as [e|] eqn:H5.
  { injection Hrun as <- <-.
    exists [CallCredentialsByID (GetID acc); CallCredentialsByLogin login;
            CallHash password]. simpl.
    rewrite <- !app_assoc. split; [done|]. split; [delete_only_last|].
    split; [done|]. do 3 (split; [signup_situation|]).
    right. split; [no_delete_in|]. right; right; right.
    exists e, e1, y2, e2, y3, passhash, y4. done. }
  destruct (logged (CallCreateCredentials _) _ _) as [rc wc] eqn:Hcc in Hrun.
  apply logged_inv in Hcc as (y5 & _ & ->).
  destruct rc as [e4|]; simpl in Hrun.
  - destruct (logged (CallDeleteAccount (GetID acc)) _ _) as [o wd] eqn:Hd in Hrun.
    apply logged_inv in Hd as (y6 & _ & ->). injection Hrun as <- <-.
    eexists [CallCredentialsByID (GetID acc); CallCredentialsByLogin login;
             CallHash password; CallCreateCredentials _;
             CallDeleteAccount (GetID acc)]. simpl.
    rewrite <- !app_assoc. split; [done|]. split; [delete_only_last|].
    split; [done|]. do 3 (split; [signup_situation|]).
    left. done.
  - injection Hrun as <- <-.
    eexists [CallCredentialsByID (GetID acc); CallCredentialsByLogin login;
             CallHash password; CallCreateCredentials _]. simpl.
    rewrite <- !app_assoc. split; [done|]. split; [delete_only_last|].
    split; [intros _; no_delete_in|]. do 3 (split; [signup_situation|]).
    right. split; [no_delete_in|]. by left.
Qed.

(** The sign-up under alice's login again: the account 50 is created, the
    lookup by login finds alice's record, the run fails with
    [ErrCredentialsConflict] and its last call is the deletion of
    account 50. *)
Lemma signup_rollback_cases_witness :
  let w := mkWorld ∅ (Demo.mkExt [Demo.alice] 50 []) [] [] in
  let r := signup (Demo.goard DEFAULT_TTL) Background "{}" "alice" "pw" w in
  r.1 = Some ErrCredentialsConflict ∧
  ∃ evs,
    trace r.2 = [] ++ [CallValidate "alice" "pw"; CallCreateAccount "{}"] ++ evs ∧
    (forall i id, evs !! i = Some (CallDeleteAccount id) ->
       id = 50 ∧ S i = length evs) ∧
    last evs = Some (CallDeleteAccount 50).
Proof.
  intros w r. split; [vm_compute; reflexivity|].
  destruct (signup_rollback_cases (Demo.goard DEFAULT_TTL) Background "{}" "alice"
              "pw" w (Demo.mkExt [Demo.alice] 50 []) (Demo.mkExt [Demo.alice] 51 [])
              (mkAccount 50) r.1 r.2)
    as (evs & Htr & Honly & _ & _ & _ & _ & Hend);
    try reflexivity.
  exists evs. split; [exact Htr|]. split; [exact Honly|].
  destruct Hend as [[_ Hlast]|[Hno _]]; [exact Hlast|].
  exfalso. apply (Hno 50).
  assert (Ht : trace r.2 = [CallValidate "alice" "pw"; CallCreateAccount "{}";
                            CallCredentialsByID 50; CallCredentialsByLogin "alice";
                            CallDeleteAccount 50]) by (vm_compute; reflexivity).
  rewrite Ht in Htr. simpl in Htr. injection Htr as <-.
  set_solver.
Defined.

(** X11. [signup] never touches the session store nor starts a goroutine,
    whatever its outcome, and only ever appends to the trace of calls. *)
Theorem signup_frame {X : Type} (g : Goard X) ctx
    (account login password : string) (w : World X) :
  sessions (signup g ctx account login password w).2 = sessions w ∧
  pending (signup g ctx account login password w).2 = pending w ∧
  trace w `prefix_of` trace (signup g ctx account login password w).2.
Proof.
  split; [apply signup_sessions|].
  unfold signup, signup_steps, signup_rollback.
  open_logged; (split; [done|]);
    rewrite <- ?app_assoc; try apply prefix_app_r; done.
Qed.

(** ** Invariants of the reachable worlds *)

(** X12. In every world reached from the empty store by the operations of
    the core, each session is stored under its own id, so looking up the id
    a session carries returns that session. *)
Theorem reachable_store_keys {X : Type} (g : Goard X) (x0 : X) (w : World X) :
  reachable g x0 w ->
  forall k s, sessions w !! k = Some s ->
    sess_id s = k ∧ InvokeSession (sess_id s) w = (Ok s, w).
Proof.
  intros Hr k s Hk.
  destruct (reachable_invariant g x0 w Hr) as [Hwf _].
  pose proof (Hwf k s Hk) as Hid. split; [done|].
  unfold InvokeSession. by rewrite Hid, Hk.
Qed.

Lemma reachable_store_keys_witness :
  let g := Demo.goard DEFAULT_TTL in
  let w := (signin g Background (3 * Hour) "9d2e" "alice" "secret"
                   (NewWorld Demo.ext0)).2 in
  ∃ s, sessions w !! "9d2e" = Some s ∧ sess_id s = "9d2e" ∧
       InvokeSession (sess_id s) w = (Ok s, w).
Proof.
  intros g w.
  set (s := mkSession "9d2e" (mkAccount 42) Demo.alice (11 * Hour) (3 * Hour) false).
  assert (Hk : sessions w !! "9d2e" = Some s) by (vm_compute; reflexivity).
  exists s. split; [exact Hk|].
  apply (reachable_store_keys g Demo.ext0 w); [|exact Hk].
  apply rtc_once. apply step_signin.
Defined.

(** The login of the session a successful [signin] returns, when the
    repository answers a lookup by login with a record of that login. *)
Lemma signin_ok_login {X : Type} (g : Goard X) ctx now uuid (L p : string)
    (w : World X) (s : Session) (w' : World X) :
  (forall l x c x', CredentialsByLogin (database g) l x = (Ok c, x') ->
     cred_login c = l) ->
  signin g ctx now uuid L p w = (Ok s, w') ->
  cred_login (sess_credentials s) = L.
Proof.
  intros Hdb H. unfold signin in H.
  destruct (bool_decide (L = "") || bool_decide (p = "")); [done|].
  inv_check_ok H.
  destruct (ForEach_revokeSameLogin_frame L w) as [m Hscan].
  inv_bind_ok H Hs uscan; rewrite Hscan in Hs. injection Hs as _ <-.
  inv_check_ok H.
  destruct (bool_decide (L = admin_Login (admin g)) &&
            bool_decide (p = admin_Password (admin g))) eqn:Hadm.
  - apply andb_true_iff in Hadm as [HL%bool_decide_eq_true _].
    unfold signinAsAdmin in H. inv_check_ok H.
    inv_bind_ok H Hc ucreate. injection Hc as _ <-. injection H as <- _.
    simpl. done.
  - inv_check_ok H.
    inv_bind_ok H Hc c. apply logged_inv in Hc as (? & Hc & ->).
    simpl in Hc. apply Hdb in Hc.
    inv_check_ok H.
    inv_bind_ok H Hc2 account. apply logged_inv in Hc2 as (? & _ & ->).
    inv_check_ok H.
    inv_bind_ok H Hc3 ok. apply callv_inv in Hc3 as (ok' & ? & Hr & _ & ->).
    injection Hr as ->.
    destruct ok'; simpl in H; [|done].
    inv_check_ok H.
    inv_bind_ok H Hc4 ucreate. injection Hc4 as _ <-. injection H as <- _.
    simpl. done.
Qed.

Lemma unique_logins_kept (keep : Session -> bool) (m : gmap string Session) :
  unique_logins m -> unique_logins (kept keep m).
Proof.
  intros Hu k1 k2 s1 s2 [H1 _]%lookup_kept [H2 _]%lookup_kept. by eapply Hu.
Qed.

Lemma unique_logins_delete (k : string) (m : gmap string Session) :
  unique_logins m -> unique_logins (delete k m).
Proof.
  intros Hu k1 k2 s1 s2 [_ H1]%lookup_delete_Some [_ H2]%lookup_delete_Some.
  by eapply Hu.
Qed.

Lemma unique_logins_step {X : Type} (g : Goard X) (w w' : World X) :
  (forall l x c x', CredentialsByLogin (database g) l x = (Ok c, x') ->
     cred_login c = l) ->
  step g w w' ->
  store_wf (sessions w) ->
  (forall k s, sessions w !! k = Some s -> sess_admin s = false) ->
  unique_logins (sessions w) -> unique_logins (sessions w').
Proof.
  intros Hdb Hstep Hwf Hno Hu. destruct Hstep.
  - destruct (signin g ctx now uuid login password w) as [r w'] eqn:Hrun. simpl.
    pose proof Hrun as Hc.
    apply signin_cases in Hc as [_ [(_ & _ & ->)|[(_ & _ & ? & _ & _ & ->)|
      [(_ & _ & _ & ? & _ & ->)|(_ & _ & _ & s & -> & -> & _)]]]]; try done.
    + by apply unique_logins_kept.
    + pose proof (signin_ok_login g ctx now uuid login password w s w' Hdb Hrun)
        as Hlogin.
      intros k1 k2 s1 s2 H1 H2 Heq.
      apply lookup_insert_Some in H1 as [[<- <-]|[Hn1 H1]];
        apply lookup_insert_Some in H2 as [[<- <-]|[Hn2 H2]]; try done.
      * apply lookup_others in H2 as [_ Hne]. congruence.
      * apply lookup_others in H1 as [_ Hne]. congruence.
      * apply lookup_others in H1 as [H1 _]. apply lookup_others in H2 as [H2 _].
        by eapply Hu.
  - by rewrite signup_sessions.
  - unfold signout, bind, check, RevokeSession, ret, fail.
    case_bool_decide; [done|].
    destruct (ctx 0%nat); simpl; [done|]. by apply unique_logins_delete.
  - by rewrite session_sessions.
  - destruct t. simpl. by apply unique_logins_delete.
  - unfold cleanup_tick. case_bool_decide; [done|].
    rewrite ForEach_revokeExpired by done. simpl. by apply unique_logins_kept.
  - by rewrite (proj1 (gate_keeps_store g id account role w Hno)).
  - by rewrite (proj2 (gate_keeps_store g id account role w Hno)).
Qed.

(** X13. One live session per login, as an invariant: provided the
    repository answers a lookup by login with a record of that login, in
    every world reached from the empty store by the operations of the core
    (run one after the other) no two stored sessions have the same login;
    the store holds at most one session of any login. *)
Theorem reachable_unique_logins {X : Type} (g : Goard X) (x0 : X) (w : World X) :
  (forall l x c x', CredentialsByLogin (database g) l x = (Ok c, x') ->
     cred_login c = l) ->
  reachable g x0 w ->
  forall L, (size (sessions_of L (sessions w)) ≤ 1)%nat.
Proof.
  intros Hdb Hr.
  assert (Hu : unique_logins (sessions w)).
  { revert w Hr. unfold reachable.
    apply (rtc_ind_r (fun w => unique_logins (sessions w))).
    - intros k1 k2 s1 s2. simpl. by rewrite lookup_empty.
    - intros w1 w2 Hr1 Hstep IH.
      apply (unique_logins_step g w1 w2 Hdb Hstep); [|by eapply reachable_no_admin|done].
      by eapply reachable_invariant. }
  intros L. unfold sessions_of.
  destruct (map_choose_or_empty
              (filter (fun kv : string * Session =>
                         cred_login (sess_credentials kv.2) = L) (sessions w)))
    as [(k & s & Hks)|Hempty].
  - transitivity (size ({[ k := s ]} : gmap string Session));
      [|by rewrite map_size_singleton].
    apply map_subseteq_size, map_subseteq_spec. intros k' s' Hk'.
    apply map_lookup_filter_Some in Hks as [Hk HL].
    apply map_lookup_filter_Some in Hk' as [Hk'' HL']. simpl in *.
    assert (k' = k) as -> by (eapply Hu; [done..|congruence]).
    rewrite Hk in Hk''. injection Hk'' as <-. apply lookup_singleton_eq.
  - rewrite Hempty, map_size_empty. lia.
Qed.

Lemma demo_login_contract :
  forall l x c x',
    CredentialsByLogin (database (Demo.goard DEFAULT_TTL)) l x = (Ok c, x') ->
    cred_login c = l.
Proof.
  intros l x c x'. simpl. unfold Demo.byLogin.
  destruct (List.find _ _) as [c0|] eqn:Hf; [|done].
  intros [= <- _]. apply List.find_some in Hf as [_ Hb].
  by apply bool_decide_eq_true in Hb.
Qed.

(** alice signs in twice in a row. *)
Lemma reachable_unique_logins_witness :
  let g := Demo.goard DEFAULT_TTL in
  let w1 := (signin g Background (3 * Hour) "9d2e" "alice" "secret"
                    (NewWorld Demo.ext0)).2 in
  let w2 := (signin g Background (4 * Hour) "77aa" "alice" "secret" w1).2 in
  (size (sessions_of "alice" (sessions w2)) ≤ 1)%nat.
Proof.
  intros g w1 w2.
  apply (reachable_unique_logins g Demo.ext0 w2 demo_login_contract).
  eapply rtc_l; [apply step_signin|]. apply rtc_once. apply step_signin.
Defined.

(** ** The sweep and validation *)

Lemma kept_kept (keep keep' : Session -> bool) (m : gmap string Session) :
  (forall s, keep s = true -> keep' s = true) ->
  kept keep' (kept keep m) = kept keep m.
Proof.
  intros Himp. apply map_eq. intros k. apply option_eq. intros s.
  rewrite !lookup_kept. naive_solver.
Qed.

(** X14. After a sweep at tick time [t] no validation made at a time whose
    Unix second is at most that of [t] answers [ErrSessionExpired]: an id is
    either unknown or validates as the session that was stored before the
    sweep.  A further sweep at such a time changes nothing; in particular
    sweeping twice at [t] is the same as sweeping once. *)
Theorem sweep_then_session {X : Type} (t : Time) (w : World X) :
  store_wf (sessions w) ->
  (forall now id, Unix now ≤ Unix t ->
     session now id (cleanup_tick t w).2
       = (Err ErrSessionNotFound, (cleanup_tick t w).2) ∨
     ∃ s, sessions w !! id = Some s ∧
          session now id (cleanup_tick t w).2 = (Ok s, (cleanup_tick t w).2)) ∧
  (forall t', Unix t' ≤ Unix t ->
     cleanup_tick t' (cleanup_tick t w).2 = (Ok tt, (cleanup_tick t w).2)).
Proof.
  intros Hwf.
  assert (Hrun : ∃ m, (cleanup_tick t w).2 = set_sessions m w ∧
            store_wf m ∧
            (forall k s, m !! k = Some s ->
               sessions w !! k = Some s ∧ Unix t < Unix (sess_exp s)) ∧
            (forall keep' : Session -> bool,
               (forall s, (Unix (sess_exp s) >? Unix t) = true -> keep' s = true) ->
               m ≠ ∅ -> kept keep' m = m)).
  { unfold cleanup_tick. case_bool_decide as Hc.
    - apply Count_zero in Hc. exists (sessions w). simpl.
      rewrite set_sessions_id. split; [done|]. split; [done|]. split.
      + intros k s. by rewrite Hc, lookup_empty.
      + intros keep' _ Hne. by rewrite Hc in Hne.
    - rewrite ForEach_revokeExpired by done. eexists. split; [done|].
      split; [by apply store_wf_kept|]. split.
      + intros k s [Hk Hgt]%lookup_kept. split; [done|]. by apply Z.gtb_lt in Hgt.
      + intros keep' Himp _. by apply kept_kept. }
  destruct Hrun as (m & -> & Hwfm & Hm & Hidem). split.
  - intros now id Hle. destruct (m !! id) as [s|] eqn:Hid.
    + right. exists s. destruct (Hm id s Hid) as [Hk Hlt]. split; [done|].
      apply session_live; [done|]. lia.
    + left. by apply session_absent.
  - intros t' Hle. unfold cleanup_tick. case_bool_decide as Hc; [done|].
    rewrite ForEach_revokeExpired by done. simpl.
    rewrite Hidem; [done| |].
    + intros s Hgt. apply Z.gtb_lt in Hgt. apply Z.gtb_lt. lia.
    + intros He. apply Hc. by apply Count_zero.
Qed.

(** A sweep at the second hour over alice's expired session and a later
    one. *)
Lemma sweep_then_session_witness :
  let late := mkSession "s-late" (mkAccount 7) (mkCredentials 7 "bob" "" [])
                        (Add (2 * Hour) Hour) (2 * Hour) false in
  let w := Demo.world (<[ "s-late" := late ]> {[ "s-alice" := Demo.aliceSession ]}) in
  let w' := (cleanup_tick (2 * Hour) w).2 in
  (session (2 * Hour) "s-alice" w').1 = Err ErrSessionNotFound ∧
  cleanup_tick (2 * Hour) w' = (Ok tt, w').
Proof.
  intros late w w'.
  destruct (sweep_then_session (2 * Hour) w) as [Hval Htwice].
  { apply (store_wf_insert _ late). apply (store_wf_singleton Demo.aliceSession). }
  split.
  - vm_compute. reflexivity.
  - apply Htwice. reflexivity.
Defined.

(** ** Role reconciliation and the role list *)

Lemma diffSlices_filter (old new : list string) :
  diffSlices old new = (filter (fun x => x ∉ new) old, filter (fun x => x ∉ old) new).
Proof.
  unfold diffSlices, collectMissing.
  rewrite (collectMissing_acc (fillMap new) new old [])
    by (intros; apply elem_of_fillMap).
  rewrite (collectMissing_acc (fillMap old) old new [])
    by (intros; apply elem_of_fillMap).
  done.
Qed.

Lemma filter_none (P : string -> Prop) `{forall x, Decision (P x)} (l : list string) :
  (forall x, x ∈ l -> ¬ P x) -> filter P l = [].
Proof.
  induction l as [|y l IH]; intros Hno; [done|].
  rewrite filter_cons_False by (apply Hno; left).
  apply IH. intros x Hx. apply Hno. by right.
Qed.

(** X15. Reconciliation by [diffSlices]: removing [toDelete] from the old
    roles and adding [toAdd] yields exactly the new roles (as sets); nothing
    is both deleted and added; when old and new hold the same roles, in any
    order and multiplicity, both results are empty, so a repeated update
    asks for no change; and swapping the arguments swaps the results. *)
Theorem diffSlices_reconciles (old new : list string) :
  ((list_to_set old ∖ list_to_set (diffSlices old new).1)
     ∪ list_to_set (diffSlices old new).2 = (list_to_set new : gset string)) ∧
  (forall x, x ∈ (diffSlices old new).1 -> x ∉ (diffSlices old new).2) ∧
  ((forall x, x ∈ old ↔ x ∈ new) -> diffSlices old new = ([], [])) ∧
  diffSlices new old = ((diffSlices old new).2, (diffSlices old new).1).
Proof.
  rewrite !diffSlices_filter. simpl. split; [|split; [|split]].
  - apply set_eq. intros x.
    rewrite elem_of_union, elem_of_difference, !elem_of_list_to_set,
      !list_elem_of_filter.
    destruct (decide (x ∈ new)), (decide (x ∈ old)); tauto.
  - intros x. rewrite !list_elem_of_filter. tauto.
  - intros Hsame. f_equal; apply filter_none; intros x Hx Hn; apply Hn, Hsame, Hx.
  - done.
Qed.

(** X16. The role list under grant and revoke: revoking removes every
    occurrence of the role and nothing else, keeping the order; a role that
    passed the conflict check of a grant and is then revoked leaves the list
    it started from, and so the record; a grant keeps a duplicate-free list
    duplicate-free; revoking twice is revoking once. *)
Theorem role_list_laws (roles : list string) (role : string) (c : Credentials) :
  hasRole (dropRole roles role) role = false ∧
  (forall r, r ≠ role -> hasRole (dropRole roles role) r = hasRole roles r) ∧
  (hasRole roles role = false -> dropRole (roles ++ [role]) role = roles) ∧
  (hasRole (cred_roles c) role = false ->
     with_roles (with_roles c (cred_roles c ++ [role]))
                (dropRole (cred_roles c ++ [role]) role) = c) ∧
  (hasRole roles role = false -> NoDup roles -> NoDup (roles ++ [role])) ∧
  dropRole (dropRole roles role) role = dropRole roles role.
Proof.
  assert (Hin : forall l r, hasRole l r = false ↔ r ∉ l).
  { intros l r. rewrite <- hasRole_spec. by destruct (hasRole l r). }
  assert (Hround : forall l, hasRole l role = false -> dropRole (l ++ [role]) role = l).
  { intros l Hl. apply Hin in Hl. rewrite dropRole_filter, filter_app.
    rewrite filter_cons_False by (intros Hn; by apply Hn). rewrite filter_nil, app_nil_r.
    rewrite <- dropRole_filter. by apply dropRole_absent. }
  split; [|split; [|split; [|split; [|split]]]].
  - apply Hin. rewrite dropRole_filter, list_elem_of_filter. tauto.
  - intros r Hr. apply eq_true_iff_eq. rewrite !hasRole_spec.
    rewrite dropRole_filter, list_elem_of_filter. naive_solver.
  - apply Hround.
  - intros Hc. rewrite Hround by done. by destruct c.
  - intros Hr Hnd. apply NoDup_app. split; [done|]. split; [|apply NoDup_singleton].
    intros x Hx Hx'. apply list_elem_of_singleton in Hx' as ->. by apply Hin in Hr.
  - apply dropRole_absent. rewrite dropRole_filter, list_elem_of_filter. tauto.
Qed.

(** ** [New] *)

(** X17. [New] returns nil exactly when the configuration has no database
    or no container.  Otherwise the app, the admin and the database are
    taken as given, a missing hasher is bcrypt at the default cost, a
    missing validator is the default one, and each of TTL and CI is kept
    when its magnitude is at least one millisecond and replaced by its
    default (8 hours, 5 minutes) otherwise; so neither is ever zero. *)
Theorem New_spec {X : Type} (bcrypt : Z -> Hasher X) (config : Config X) :
  (New bcrypt config = None ↔
     cfg_Database config = None ∨ cfg_Container config = None) ∧
  (forall g, New bcrypt config = Some g ->
     app g = cfg_App config ∧ admin g = cfg_Admin config ∧
     cfg_Database config = Some (database g) ∧
     hasher g = default (bcrypt DEFAULT_COST) (cfg_Hasher config) ∧
     validator g = default NewDefaultValidator (cfg_Validator config) ∧
     ttl g = (if decide (- Millisecond < cfg_TTL config < Millisecond)
              then DEFAULT_TTL else cfg_TTL config) ∧
     ci g = (if decide (- Millisecond < cfg_CI config < Millisecond)
             then DEFAULT_CLEANUP else cfg_CI config) ∧
     ttl g ≠ 0 ∧ ci g ≠ 0).
Proof.
  assert (Hms : forall d D : Duration, D ≠ 0 ->
    (if (Milliseconds d =? 0)%Z then D else d)
    = (if decide (- Millisecond < d < Millisecond) then D else d) ∧
    (if (Milliseconds d =? 0)%Z then D else d) ≠ 0).
  { intros d D HD. unfold Milliseconds, Millisecond.
    destruct (Z.eqb_spec (d `quot` 1000000) 0) as [Hq|Hq].
    - split; [|done]. rewrite decide_True; [done|].
      apply Z.quot_small_iff in Hq; lia.
    - split.
      + rewrite decide_False; [done|]. intros Hs. apply Hq.
        apply Z.quot_small_iff; lia.
      + intros ->. by apply Hq. }
  unfold New. split.
  - destruct (cfg_Database config), (cfg_Container config); naive_solver.
  - intros g. destruct (cfg_Database config) as [db|]; [|done].
    destruct (cfg_Container config) as [ct|]; [|done].
    intros [= <-]. simpl.
    destruct (Hms (cfg_TTL config) DEFAULT_TTL) as [-> Ht]; [done|].
    destruct (Hms (cfg_CI config) DEFAULT_CLEANUP) as [-> Hc]; [done|].
    repeat split; try done.
    all: first [ by destruct (cfg_Hasher config)
               | by destruct (cfg_Validator config) ].
Qed.

(** ** The HTTP handlers *)

Lemma signout_sessions {X : Type} (ctx : Ctx) (id : string) (w : World X) :
  ctx 0%nat = None ->
  sessions (signout ctx id w).2 = delete id (sessions w).
Proof.
  intros Hc. unfold signout. case_bool_decide as He.
  - apply Count_zero in He. simpl. by rewrite He, delete_empty.
  - unfold bind. by rewrite check_None.
Qed.

Section HandlerProperties.
Context {R X : Type} (h : Service R X).
Implicit Types (r : R) (w : World X).

(** X18. [Guard] does exactly one of three things: it lets the request
    through to the next handler, answers 401, or answers 403; it never
    answers 500 with the in-memory store.  The request passes exactly when
    it carries a non-empty session id that is stored, whose session expires
    in a Unix second after that of [now], and which the filter accepts; it
    is answered 403 exactly when only the filter refuses.  A request that
    passes leaves the world as it was, and no request changes the store or
    calls a collaborator. *)
Theorem Guard_spec (filter : Session -> bool) (now : Time) r w :
  let id := GetSession (container h) r in
  let out := Guard h filter now r w in
  (out.1 = [ServeHTTP] ∨ out.1 = [WriteHeader StatusUnauthorized] ∨
   out.1 = [WriteHeader StatusForbidden]) ∧
  (out.1 = [ServeHTTP] ↔
     id ≠ "" ∧ ∃ s, sessions w !! id = Some s ∧
                    Unix now < Unix (sess_exp s) ∧ filter s = true) ∧
  (out.1 = [WriteHeader StatusForbidden] ↔
     id ≠ "" ∧ ∃ s, sessions w !! id = Some s ∧
                    Unix now < Unix (sess_exp s) ∧ filter s = false) ∧
  (out.1 = [ServeHTTP] -> out.2 = w) ∧
  sessions out.2 = sessions w ∧ ext out.2 = ext w ∧ trace out.2 = trace w.
Proof.
  intros id out. subst out. unfold Guard. fold id.
  case_bool_decide as Hid.
  { simpl. split; [auto|]. repeat split; try done; naive_solver. }
  destruct (sessions w !! id) as [s|] eqn:Hs.
  - destruct (Z.le_gt_cases (Unix (sess_exp s)) (Unix now)) as [Hle|Hgt].
    + rewrite (session_expired now id w s Hs Hle). simpl.
      split; [auto|]. repeat split; try done.
      * intros (_ & s' & [= <-] & ? & _). lia.
      * intros (_ & s' & [= <-] & ? & _). lia.
    + rewrite (session_live now id w s Hs) by lia.
      destruct (filter s) eqn:Hf; simpl.
      * split; [auto|]. repeat split; try done; [eauto|].
        intros (_ & s' & [= <-] & _ & ?). congruence.
      * split; [auto|]. repeat split; try done; [|eauto].
        intros (_ & s' & [= <-] & _ & ?). congruence.
  - rewrite (session_absent now id w Hs). simpl.
    split; [auto|]. repeat split; try done; naive_solver.
Qed.

(** X19. [SignOut] answers 401 whatever happens, and without a session
    id in the request it changes nothing.  When the request carries a
    session id and its context is not cancelled, that id is gone from the
    store afterwards, the other sessions are untouched, and [Guard] answers
    401 to any later request carrying the same id, whatever the filter and
    the time. *)
Theorem SignOut_spec (ctx : Ctx) r w :
  (SignOut h ctx r w).1 = [WriteHeader StatusUnauthorized] ∧
  (GetSession (container h) r = "" -> (SignOut h ctx r w).2 = w) ∧
  (GetSession (container h) r ≠ "" -> ctx 0%nat = None ->
     sessions (SignOut h ctx r w).2 !! GetSession (container h) r = None ∧
     (forall k, k ≠ GetSession (container h) r ->
        sessions (SignOut h ctx r w).2 !! k = sessions w !! k) ∧
     (forall filter now r',
        GetSession (container h) r' = GetSession (container h) r ->
        (Guard h filter now r' (SignOut h ctx r w).2).1
          = [WriteHeader StatusUnauthorized])).
Proof.
  unfold SignOut. split; [by case_bool_decide|]. split.
  { intros ->. by rewrite bool_decide_eq_true_2. }
  intros Hid Hc. rewrite bool_decide_eq_false_2 by done. simpl.
  rewrite signout_sessions by done.
  assert (Hgone : delete (GetSession (container h) r) (sessions w)
                    !! GetSession (container h) r = None)
    by apply lookup_delete_eq.
  split; [exact Hgone|]. split.
  - intros k Hk. by rewrite lookup_delete_ne.
  - intros filter now r' Heq. unfold Guard. rewrite Heq.
    rewrite bool_decide_eq_false_2 by done.
    rewrite session_absent; [done|]. by rewrite signout_sessions.
Qed.

End HandlerProperties.

(** alice's request passes the guard half an hour after the issue, is
    refused by a filter asking for the role "admin", and is answered 401
    after she signed out. *)
Lemma Guard_spec_witness :
  let w := Demo.world {[ "s-alice" := Demo.aliceSession ]} in
  let r := DemoHttp.with_cookie "s-alice" in
  (Guard (DemoHttp.service DEFAULT_TTL) (fun _ => true) (Hour / 2) r w).1
    = [ServeHTTP] ∧
  (Guard (DemoHttp.service DEFAULT_TTL) (fun s => hasRole (Roles s) "admin")
         (Hour / 2) r w).1 = [WriteHeader StatusForbidden].
Proof.
  intros w r. split.
  - apply (Guard_spec (DemoHttp.service DEFAULT_TTL) (fun _ => true) (Hour / 2) r w).
    split; [discriminate|]. exists Demo.aliceSession.
    split; [apply lookup_singleton_eq|]. split; [vm_compute|]; reflexivity.
  - apply (Guard_spec (DemoHttp.service DEFAULT_TTL)
             (fun s => hasRole (Roles s) "admin") (Hour / 2) r w).
    split; [discriminate|]. exists Demo.aliceSession.
    split; [apply lookup_singleton_eq|]. split; [vm_compute|]; reflexivity.
Defined.

Lemma SignOut_spec_witness :
  let w := Demo.world {[ "s-alice" := Demo.aliceSession ]} in
  let r := DemoHttp.with_cookie "s-alice" in
  let out := SignOut (DemoHttp.service DEFAULT_TTL) Background r w in
  out.1 = [WriteHeader StatusUnauthorized] ∧
  (Guard (DemoHttp.service DEFAULT_TTL) (fun _ => true) (Hour / 2) r out.2).1
    = [WriteHeader StatusUnauthorized].
Proof.
  intros w r out.
  destruct (SignOut_spec (DemoHttp.service DEFAULT_TTL) Background r w)
    as (Hout & _ & Hafter).
  split; [exact Hout|].
  destruct Hafter as (_ & _ & Hguard); [discriminate | reflexivity |].
  apply Hguard. reflexivity.
Defined.

(** The two failures of the credential path that the handler must not let
    a caller tell apart. *)
Lemma signin_not_found_run {X : Type} (g : Goard X) ctx now uuid (L p : string)
    (w : World X) (e : error) (x1 : X) :
  L ≠ "" -> p ≠ "" ->
  ¬ (L = admin_Login (admin g) ∧ p = admin_Password (admin g)) ->
  (forall n, (n < 6)%nat -> ctx n = None) ->
  CredentialsByLogin (database g) L (ext w) = (Err e, x1) ->
  (signin g ctx now uuid L p w).1 = Err e.
Proof.
  intros HL Hp Hadm Hctx Hdb.
  unfold signin. rewrite !bool_decide_eq_false_2 by done. simpl.
  unfold bind at 1. rewrite check_None by (apply Hctx; lia).
  destruct (ForEach_revokeSameLogin_frame L w) as [m Hscan].
  unfold bind at 1. rewrite Hscan.
  unfold bind at 1. rewrite check_None by (apply Hctx; lia).
  assert (Hna : bool_decide (L = admin_Login (admin g)) &&
                bool_decide (p = admin_Password (admin g)) = false).
  { destruct (bool_decide (L = admin_Login (admin g))) eqn:H1; [|done].
    destruct (bool_decide (p = admin_Password (admin g))) eqn:H2; [|done].
    apply bool_decide_eq_true in H1. apply bool_decide_eq_true in H2. tauto. }
  rewrite Hna.
  unfold bind at 1. rewrite check_None by (apply Hctx; lia).
  unfold bind at 1, call. by erewrite logged_run by (simpl; exact Hdb).
Qed.

Lemma signin_mismatch_run {X : Type} (g : Goard X) ctx now uuid (L p : string)
    (w : World X) (c : Credentials) (acc : Account) (x1 x2 x3 : X) :
  L ≠ "" -> p ≠ "" ->
  ¬ (L = admin_Login (admin g) ∧ p = admin_Password (admin g)) ->
  (forall n, (n < 6)%nat -> ctx n = None) ->
  CredentialsByLogin (database g) L (ext w) = (Ok c, x1) ->
  AccountByID (app g) (cred_id c) x1 = (Ok acc, x2) ->
  Compare (hasher g) (cred_passhash c) p x2 = (false, x3) ->
  (signin g ctx now uuid L p w).1 = Err ErrCredentialsMismatch.
Proof.
  intros HL Hp Hadm Hctx Hdb Happ Hcmp.
  unfold signin. rewrite !bool_decide_eq_false_2 by done. simpl.
  unfold bind at 1. rewrite check_None by (apply Hctx; lia).
  destruct (ForEach_revokeSameLogin_frame L w) as [m Hscan].
  unfold bind at 1. rewrite Hscan.
  unfold bind at 1. rewrite check_None by (apply Hctx; lia).
  assert (Hna : bool_decide (L = admin_Login (admin g)) &&
                bool_decide (p = admin_Password (admin g)) = false).
  { destruct (bool_decide (L = admin_Login (admin g))) eqn:H1; [|done].
    destruct (bool_decide (p = admin_Password (admin g))) eqn:H2; [|done].
    apply bool_decide_eq_true in H1. apply bool_decide_eq_true in H2. tauto. }
  rewrite Hna.
  unfold bind at 1. rewrite check_None by (apply Hctx; lia).
  unfold bind at 1, call. erewrite logged_run by (simpl; exact Hdb).
  unfold bind at 1. rewrite check_None by (apply Hctx; lia).
  unfold bind at 1. erewrite logged_run by (simpl; exact Happ).
  unfold bind at 1. rewrite check_None by (apply Hctx; lia).
  unfold bind at 1, callv. by erewrite logged_run by (simpl; exact Hcmp).
Qed.

(** X20. [SignIn], exactly.  A request the transport cannot decode is
    answered 400 and nothing is run.  Otherwise [signin] is run with the
    decoded login and password, and the handler leaves the world as
    [signin] left it: if [signin] returned a session, the handler sets the
    session cookie to that session and then answers 200; if [signin]
    returned an error, the handler writes a single status and no cookie,
    400 for [ErrBadCredentials], 403 for [ErrCredentialsNotFound] and for
    [ErrCredentialsMismatch], 500 for any other error.  So the cookie is
    set exactly when [signin] succeeded.  On the credential path a login
    the repository does not know and a password the hasher rejects get the
    same answer, 403. *)
Theorem SignIn_spec {R X : Type} (h : Service R X) ctx now uuid (r : R)
    (w : World X) :
  (forall e, Transport_SignIn (transport h) r = Err e ->
     SignIn h ctx now uuid r w = ([WriteHeader StatusBadRequest], w)) ∧
  (forall L p s w',
     Transport_SignIn (transport h) r = Ok (L, p) ->
     signin (core h) ctx now uuid L p w = (Ok s, w') ->
     SignIn h ctx now uuid r w = ([SetSession s; WriteHeader StatusOK], w')) ∧
  (forall L p e w',
     Transport_SignIn (transport h) r = Ok (L, p) ->
     signin (core h) ctx now uuid L p w = (Err e, w') ->
     ∃ status,
       SignIn h ctx now uuid r w = ([WriteHeader status], w') ∧
       (errors_Is e ErrBadCredentials = true -> status = StatusBadRequest) ∧
       (errors_Is e ErrBadCredentials = false ->
        errors_Is e ErrCredentialsNotFound = true ∨
        errors_Is e ErrCredentialsMismatch = true ->
        status = StatusForbidden) ∧
       (errors_Is e ErrBadCredentials = false ->
        errors_Is e ErrCredentialsNotFound = false ->
        errors_Is e ErrCredentialsMismatch = false ->
        status = StatusInternalServerError)) ∧
  (forall s, SetSession s ∈ (SignIn h ctx now uuid r w).1 ->
     ∃ L p, Transport_SignIn (transport h) r = Ok (L, p) ∧
            (signin (core h) ctx now uuid L p w).1 = Ok s ∧
            (SignIn h ctx now uuid r w).1 = [SetSession s; WriteHeader StatusOK]) ∧
  (forall L p, Transport_SignIn (transport h) r = Ok (L, p) ->
     L ≠ "" -> p ≠ "" ->
     ¬ (L = admin_Login (admin (core h)) ∧ p = admin_Password (admin (core h))) ->
     (forall n, (n < 6)%nat -> ctx n = None) ->
     (forall x1,
        CredentialsByLogin (database (core h)) L (ext w)
          = (Err ErrCredentialsNotFound, x1) ->
        (SignIn h ctx now uuid r w).1 = [WriteHeader StatusForbidden]) ∧
     (forall c acc x1 x2 x3,
        CredentialsByLogin (database (core h)) L (ext w) = (Ok c, x1) ->
        AccountByID (app (core h)) (cred_id c) x1 = (Ok acc, x2) ->
        Compare (hasher (core h)) (cred_passhash c) p x2 = (false, x3) ->
        (SignIn h ctx now uuid r w).1 = [WriteHeader StatusForbidden])).
Proof.
  split; [|split; [|split; [|split]]].
  - intros e Ht. unfold SignIn. by rewrite Ht.
  - intros L p s w' Ht Hrun. unfold SignIn. by rewrite Ht, Hrun.
  - intros L p e w' Ht Hrun. unfold SignIn. rewrite Ht, Hrun.
    eexists. split; [reflexivity|].
    split; [by intros ->|]. split.
    + intros -> [-> | Hm]; [done|].
      rewrite Hm. by destruct (errors_Is e ErrCredentialsNotFound).
    + by intros -> -> ->.
  - intros s. unfold SignIn.
    destruct (Transport_SignIn (transport h) r) as [[L p]|e]; simpl.
    + destruct (signin (core h) ctx now uuid L p w) as [[s'|e] w'] eqn:Hrun; simpl.
      * intros Hin. apply elem_of_cons in Hin as [[= ->]|Hin].
        -- exists L, p. by rewrite Hrun.
        -- apply elem_of_cons in Hin as [Hin|Hin]; [discriminate|].
           by apply elem_of_nil in Hin.
      * intros Hin. apply elem_of_cons in Hin as [Hin|Hin]; [discriminate|].
        by apply elem_of_nil in Hin.
    + intros Hin. apply elem_of_cons in Hin as [Hin|Hin]; [discriminate|].
      by apply elem_of_nil in Hin.
  - intros L p Ht HL Hp Hadm Hctx. split.
    + intros x1 Hdb.
      pose proof (signin_not_found_run (core h) ctx now uuid L p w _ x1
                    HL Hp Hadm Hctx Hdb) as Hrun.
      unfold SignIn. rewrite Ht.
      destruct (signin (core h) ctx now uuid L p w) as [res w'].
      simpl in Hrun. by rewrite Hrun.
    + intros c acc x1 x2 x3 Hdb Happ Hcmp.
      pose proof (signin_mismatch_run (core h) ctx now uuid L p w c acc x1 x2 x3
                    HL Hp Hadm Hctx Hdb Happ Hcmp) as Hrun.
      unfold SignIn. rewrite Ht.
      destruct (signin (core h) ctx now uuid L p w) as [res w'].
      simpl in Hrun. by rewrite Hrun.
Qed.

(** alice signing in with her password gets the cookie of her new session
    and 200; a wrong password for alice and a login nobody has are both
    answered 403. *)
Lemma SignIn_spec_witness :
  let s := mkSession "9d2e" (mkAccount 42) Demo.alice (11 * Hour) (3 * Hour) false in
  (SignIn (DemoHttp.service DEFAULT_TTL) Background (3 * Hour) "9d2e"
          (DemoHttp.login "alice" "secret") (Demo.world ∅)).1
    = [SetSession s; WriteHeader StatusOK] ∧
  (SignIn (DemoHttp.service DEFAULT_TTL) Background (3 * Hour) "9d2e"
          (DemoHttp.login "alice" "guess") (Demo.world ∅)).1
    = [WriteHeader StatusForbidden] ∧
  (SignIn (DemoHttp.service DEFAULT_TTL) Background (3 * Hour) "9d2e"
          (DemoHttp.login "mallory" "guess") (Demo.world ∅)).1
    = [WriteHeader StatusForbidden].
Proof.
  intros s.
  assert (Hna : forall L : string, L ≠ "root" ->
            ¬ (L = admin_Login (admin (core (DemoHttp.service DEFAULT_TTL))) ∧
               "guess" = admin_Password (admin (core (DemoHttp.service DEFAULT_TTL)))))
    by (intros L HL [? _]; done).
  split; [|split].
  - pose proof (SignIn_spec (DemoHttp.service DEFAULT_TTL) Background (3 * Hour)
                  "9d2e" (DemoHttp.login "alice" "secret") (Demo.world ∅))
      as (_ & Hok & _).
    set (run := signin (core (DemoHttp.service DEFAULT_TTL)) Background (3 * Hour)
                  "9d2e" "alice" "secret" (Demo.world ∅)).
    assert (Hrun : run = (Ok s, run.2)) by (vm_compute; reflexivity).
    by rewrite (Hok "alice" "secret" s run.2 eq_refl Hrun).
  - pose proof (SignIn_spec (DemoHttp.service DEFAULT_TTL) Background (3 * Hour)
                  "9d2e" (DemoHttp.login "alice" "guess") (Demo.world ∅))
      as (_ & _ & _ & _ & H403).
    pose proof (H403 "alice" "guess" eq_refl ltac:(discriminate) ltac:(discriminate)
                  (Hna "alice" ltac:(discriminate)) (fun _ _ => eq_refl))
      as [_ Hmis].
    exact (Hmis Demo.alice (mkAccount 42) Demo.ext0 Demo.ext0 Demo.ext0
             eq_refl eq_refl eq_refl).
  - pose proof (SignIn_spec (DemoHttp.service DEFAULT_TTL) Background (3 * Hour)
                  "9d2e" (DemoHttp.login "mallory" "guess") (Demo.world ∅))
      as (_ & _ & _ & _ & H403).
    pose proof (H403 "mallory" "guess" eq_refl ltac:(discriminate) ltac:(discriminate)
                  (Hna "mallory" ltac:(discriminate)) (fun _ _ => eq_refl))
      as [Hnf _].
    exact (Hnf Demo.ext0 eq_refl).
Defined.

(** X21. In every world reached from the empty store by the operations of
    the core, the handlers [SetRole] and [UnsetRole] never answer 200 and
    never change anything: a request without session id gets 401, one the
    transport cannot decode gets 400, one whose session id is stored gets
    403 (no stored session is an admin session), and one whose session id is
    unknown gets 500, since [ErrSessionNotFound] is not among the errors the
    handlers map. *)
Theorem role_handlers_unreachable {R X : Type} (h : Service R X) (x0 : X)
    (r : R) (w : World X) :
  reachable (core h) x0 w ->
  let id := GetSession (container h) r in
  SetRole h r w =
    ([WriteHeader
        (if bool_decide (id = "") then StatusUnauthorized
         else match Transport_SetRole (transport h) r with
              | Err _ => StatusBadRequest
              | Ok _ => match sessions w !! id with
                        | Some _ => StatusForbidden
                        | None => StatusInternalServerError
                        end
              end)], w) ∧
  UnsetRole h r w =
    ([WriteHeader
        (if bool_decide (id = "") then StatusUnauthorized
         else match Transport_UnsetRole (transport h) r with
              | Err _ => StatusBadRequest
              | Ok _ => match sessions w !! id with
                        | Some _ => StatusForbidden
                        | None => StatusInternalServerError
                        end
              end)], w).
Proof.
  intros Hr id. pose proof (reachable_no_admin (core h) x0 w Hr) as Hno.
  unfold SetRole, UnsetRole. fold id. case_bool_decide; [done|]. split.
  - destruct (Transport_SetRole (transport h) r) as [[account role]|e]; [|done].
    rewrite (proj1 (gate_keeps_store (core h) id account role w Hno)).
    by destruct (sessions w !! id).
  - destruct (Transport_UnsetRole (transport h) r) as [[account role]|e]; [|done].
    rewrite (proj2 (gate_keeps_store (core h) id account role w Hno)).
    by destruct (sessions w !! id).
Qed.

(** The admin signs in with the configured password and asks, with the
    session obtained, to grant alice a role: the answer is 403. *)
Lemma role_handlers_unreachable_witness :
  let h := DemoHttp.service DEFAULT_TTL in
  let w := (signin (core h) Background (3 * Hour) "6f1c" "root" "toor"
                   (NewWorld Demo.ext0)).2 in
  SetRole h (DemoHttp.patch "6f1c" 42 "editor") w
    = ([WriteHeader StatusForbidden], w).
Proof.
  intros h w.
  destruct (role_handlers_unreachable h Demo.ext0
              (DemoHttp.patch "6f1c" 42 "editor") w) as [Hset _].
  - apply rtc_once. apply step_signin.
  - rewrite Hset. reflexivity.
Defined.

(** X22. [SignUp] never signs the new user in: it sets no cookie and leaves
    the session store as it was.  It writes nothing at all exactly when the
    request was decoded and [signup] returned nil (the server then answers
    200 by itself); otherwise it writes a single status among 400, 403, 409
    and 500, and 409 only for an error that is [ErrCredentialsConflict]. *)
Theorem SignUp_spec {R X : Type} (h : Service R X) ctx (r : R) (w : World X) :
  sessions (SignUp h ctx r w).2 = sessions w ∧
  (forall s, SetSession s ∉ (SignUp h ctx r w).1) ∧
  ((SignUp h ctx r w).1 = [] ↔
     ∃ account login password,
       Transport_SignUp (transport h) r = Ok (account, login, password) ∧
       (signup (core h) ctx account login password w).1 = None) ∧
  ((SignUp h ctx r w).1 = [] ∨
   ∃ status, (SignUp h ctx r w).1 = [WriteHeader status] ∧
     (status = StatusBadRequest ∨ status = StatusForbidden ∨
      status = StatusInternalServerError ∨
      (status = StatusConflict ∧
       ∃ account login password e,
         Transport_SignUp (transport h) r = Ok (account, login, password) ∧
         (signup (core h) ctx account login password w).1 = Some e ∧
         errors_Is e ErrCredentialsConflict = true))).
Proof.
  unfold SignUp.
  destruct (Transport_SignUp (transport h) r) as [[[account login] password]|e].
  2:{ simpl. split; [done|]. split.
      { intros s [?|?%elem_of_nil]%elem_of_cons; done. }
      split; [split; [done | by intros (? & ? & ? & ? & _)]|].
      right. eexists. split; [done|]. auto. }
  pose proof (signup_sessions (core h) ctx account login password w) as Hs.
  destruct (signup (core h) ctx account login password w) as [[e|] w'] eqn:Hrun;
    simpl in *.
  - split; [done|]. split.
    { intros s [?|?%elem_of_nil]%elem_of_cons; done. }
    split.
    { split; [done|]. intros (a & l & p & [= <- <- <-] & Hn).
      rewrite Hrun in Hn. done. }
    right. eexists. split; [done|].
    destruct (errors_Is e ErrBadCredentials); [auto|].
    destruct (errors_Is e ErrCredentialsConflict) eqn:Hconf.
    + right; right; right. split; [done|].
      exists account, login, password, e. by rewrite Hrun.
    + destruct (errors_Is e ErrCredentialsMismatch); auto.
  - split; [done|]. split; [intros s ?%elem_of_nil; done|].
    split; [|by left].
    split; [|done]. intros _. exists account, login, password. by rewrite Hrun.
Qed.
